(** * SubtleCrypto: the dispatch layer of src/SubtleCrypto.js

    A shallow embedding of the [SubtleCrypto] class.  Every public method
    normalizes the algorithm, validates the key and hands the work to the
    methods of an algorithm object.  The embedding keeps the three things the
    properties below talk about:

    - the order of the checks, written as sequential code in a small
      state-and-exception monad;
    - the calls that leave the class ([supportedAlgorithms.normalize] and the
      methods of algorithm objects), recorded in a trace;
    - the promise each method returns, represented by the state it eventually
      reaches (pending for ever, fulfilled with a value, rejected with an
      error). *)

From Stdlib Require Import String List Bool.
From stdpp Require Import base option strings list gmap.

Open Scope string_scope.
Open Scope list_scope.

(** ** Errors *)

(** The error classes the file throws ([InvalidAccessError] and
    [NotSupportedError] from ./errors, the built-in [SyntaxError] and
    [TypeError]) and the errors that reach it from outside. *)
Inductive error : Type :=
| InvalidAccessError (message : string)
| NotSupportedError (message : string)
| SyntaxError
| TypeError (message : string)
| RangeError (message : string)
| OperationError (message : string)
| DataError (message : string).

(** A completion of synchronous code: a value, or a thrown error. *)
Inductive completion (A : Type) : Type :=
| Normal (a : A)
| Throw (e : error).
Arguments Normal {A} a.
Arguments Throw {A} e.

(** ** Data *)

Definition bytes : Type := list Byte.byte.

(** Values of flags and of dictionary members.  [extractable] is declared
    Boolean but nothing converts it, so a key can carry any of these. *)
Inductive scalar : Type :=
| SUndefined
| SNull
| SBool (b : bool)
| SNumber (n : Z)
| SString (s : string)
| SBytes (bs : bytes).

(** [x === false] *)
Definition strictly_false (x : scalar) : bool :=
  match x with SBool false => true | _ => false end.

(** AlgorithmIdentifier: what the caller passes, a bare name or a dictionary
    with a [name] member and algorithm-specific members. *)
Inductive AlgorithmIdentifier : Type :=
| AlgorithmName (s : string)
| AlgorithmDictionary (members : list (string * scalar)).

(** An algorithm object: what [supportedAlgorithms.normalize] returns and what
    a key holds in its [algorithm] field.  Its methods are looked up in the
    method table of the section below. *)
Record Algorithm : Type := {
  name : string;
  params : list (string * scalar)
}.

(** CryptoKey.  [usages] may be missing, which the code tests with [!usages]. *)
Record CryptoKey : Type := {
  type : string;
  extractable : scalar;
  algorithm : Algorithm;
  usages : option (list string);
  handle : bytes
}.

(** JsonWebKey, the portable key record: key type, algorithm hint,
    extractability hint, operation hints and the key material members. *)
Record JsonWebKey : Type := {
  kty : string;
  alg : option string;
  ext : option bool;
  key_ops : option (list string);
  material : list (string * string)
}.

(** Values that algorithm methods return and that [importKey] accepts as
    [keyData].  A promise is represented by the state it eventually reaches. *)
Inductive value : Type :=
| VUndefined
| VBool (b : bool)
| VBytes (bs : bytes)
| VJwk (jwk : JsonWebKey)
| VKey (key : CryptoKey)
| VKeyPair (publicKey privateKey : CryptoKey)
| VPromise (p : promise)
with promise : Type :=
| Pending
| Fulfilled (v : value)
| Rejected (e : error).

(** Arguments of a call that leaves the class. *)
Inductive arg : Type :=
| ADescriptor (a : AlgorithmIdentifier)
| AKey (k : CryptoKey)
| ABytes (bs : bytes)
| AString (s : string)
| AScalar (x : scalar)
| AUsages (us : list string)
| AValue (v : value).

(** A method of an algorithm object. *)
Definition method : Type := list arg → completion value.

(** What the trace records. *)
Inductive event : Type :=
| Normalize (op : string) (a : AlgorithmIdentifier)
| Call (this : Algorithm) (method_name : string) (args : list arg).

Definition is_Call (ev : event) : bool :=
  match ev with Call _ _ _ => true | Normalize _ _ => false end.

(** The calls made to algorithm methods, in order. *)
Definition provider_calls (tr : list event) : list event := List.filter is_Call tr.

(** Does a call pass this descriptor as one of its arguments? *)
Definition passes_descriptor (a : AlgorithmIdentifier) (ev : event) : Prop :=
  match ev with
  | Call _ _ args => ADescriptor a ∈ args
  | Normalize _ _ => False
  end.

(** ** The monad of synchronous code *)

(** [trace]: the calls made so far.  [settled]: the resolution of the promise
    whose executor is running, [None] while neither [resolve] nor [reject]
    has been called. *)
Record State : Type := {
  trace : list event;
  settled : option promise
}.

Definition M (A : Type) : Type := State → completion A * State.

Definition ret {A} (a : A) : M A := λ st, (Normal a, st).

Definition bind {A B} (m : M A) (k : A → M B) : M B :=
  λ st, match m st with
        | (Normal a, st') => k a st'
        | (Throw e, st') => (Throw e, st')
        end.

Definition throw {A} (e : error) : M A := λ st, (Throw e, st).

(** try { body } catch (error) { handler error } *)
Definition try_catch {A} (body : M A) (handler : error → M A) : M A :=
  λ st, match body st with
        | (Normal a, st') => (Normal a, st')
        | (Throw e, st') => handler e st'
        end.

Declare Scope js_scope.
Delimit Scope js_scope with js.
Notation "'let*' x ':=' m 'in' k" := (bind m (λ x, k))
  (at level 10, x name, m at level 100, k at level 200) : js_scope.
Notation "m ';;;' k" := (bind m (λ _, k))
  (at level 100, k at level 200, right associativity) : js_scope.
Open Scope js_scope.

(** if (b) { m } *)
Definition when (b : bool) (m : M unit) : M unit := if b then m else ret tt.

Definition emit (ev : event) : M unit :=
  λ st, (Normal tt, {| trace := trace st ++ [ev]; settled := settled st |}).

(** Run a method from a fresh state. *)
Definition initial : State := {| trace := []; settled := None |}.

Definition run {A} (m : M A) : completion A * list event :=
  let '(c, st) := m initial in (c, trace st).

(** ** Promises *)

(** What a promise resolved with [v] eventually becomes: a promise is
    adopted, anything else fulfils. *)
Fixpoint resolution (v : value) : promise :=
  match v with
  | VPromise p =>
      match p with
      | Fulfilled v' => resolution v'
      | Pending => Pending
      | Rejected e => Rejected e
      end
  | _ => Fulfilled v
  end.

(** The [resolve] and [reject] functions of the running executor: the first
    call decides, later calls do nothing. *)
Definition resolve (v : value) : M unit :=
  λ st, match settled st with
        | None => (Normal tt, {| trace := trace st; settled := Some (resolution v) |})
        | Some _ => (Normal tt, st)
        end.

Definition reject (e : error) : M unit :=
  λ st, match settled st with
        | None => (Normal tt, {| trace := trace st; settled := Some (Rejected e) |})
        | Some _ => (Normal tt, st)
        end.

(** [new Promise(executor)].  Without an executor the constructor throws a
    TypeError (ECMAScript, Promise constructor, step 2: "If IsCallable(executor)
    is false, throw a TypeError exception").  With one, the executor runs at
    once with its own [resolve]/[reject]; an error it throws rejects the
    promise unless it is settled already; its return value is ignored. *)
Definition new_Promise (executor : option (M unit)) : M promise :=
  match executor with
  | None => throw (TypeError "Promise resolver undefined is not a function")
  | Some body =>
      λ st,
        let '(c, st') := body {| trace := trace st; settled := None |} in
        let slot := match c, settled st' with
                    | Throw e, None => Some (Rejected e)
                    | _, s => s
                    end in
        (Normal (match slot with Some p => p | None => Pending end),
         {| trace := trace st'; settled := settled st |})
  end.

(** [Promise.reject(e)] *)
Definition Promise_reject (e : error) : M promise := ret (Rejected e).

(** [p.then(onFulfilled)]: the callback runs only if [p] fulfils; what it
    returns resolves the new promise, what it throws rejects it; a rejection
    of [p] passes to the new promise.  The callback runs inside the executor's
    scope, so it can reach the outer [resolve] and [reject]. *)
Definition then_ (p : promise) (onFulfilled : value → M value) : M promise :=
  match p with
  | Fulfilled v =>
      λ st, match onFulfilled v st with
            | (Normal r, st') => (Normal (resolution r), st')
            | (Throw e, st') => (Normal (Rejected e), st')
            end
  | Rejected e => ret (Rejected e)
  | Pending => ret Pending
  end.

(** ** Built-ins used by the class *)

(** The text of [InvalidAccessError('Key usages must include "op"')]. *)
Definition double_quote : string :=
  String (Ascii.Ascii false true false false false true false false) EmptyString.

Definition usages_must_include (op : string) : string :=
  ("Key usages must include " ++ double_quote ++ op ++ double_quote)%string.

(** [data.slice()] on a byte buffer: an independent copy with the same bytes. *)
Definition slice (data : bytes) : bytes := data.

(** [keyData.slice()] where [keyData] is whatever the caller passed. *)
Definition slice_value (keyData : value) : M value :=
  match keyData with
  | VBytes bs => ret (VBytes (slice bs))
  | VUndefined => throw (TypeError "Cannot read properties of undefined (reading 'slice')")
  | _ => throw (TypeError "keyData.slice is not a function")
  end.

(** [usages.includes(u)]; reading [includes] of a missing array throws. *)
Definition includes (us : option (list string)) (u : string) : M bool :=
  match us with
  | Some l => ret (existsb (String.eqb u) l)
  | None => throw (TypeError "Cannot read properties of undefined (reading 'includes')")
  end.

(** [!usages || usages.length === 0] *)
Definition empty_usages (us : option (list string)) : bool :=
  match us with
  | None => true
  | Some l => Nat.eqb (length l) 0
  end.

(** [type === 'secret' || type === 'private'] *)
Definition restricted_type (t : string) : bool :=
  String.eqb t "secret" || String.eqb t "private".

(** [new Uint8Array(x)]: a typed array is copied, [undefined] gives the empty
    array, a boolean is taken as a length, an object that is neither iterable
    nor array-like gives the empty array. *)
Definition Uint8Array_from (x : value) : bytes :=
  match x with
  | VBytes bs => bs
  | VBool true => [Byte.x00]
  | _ => []
  end.

(** [x instanceof JsonWebKey] *)
Definition instanceof_JsonWebKey (x : value) : bool :=
  match x with VJwk _ => true | _ => false end.

(** [result.type]: reading a property of [undefined] throws; only a key has
    the property. *)
Definition get_type (result : value) : M (option string) :=
  match result with
  | VUndefined => throw (TypeError "Cannot read properties of undefined (reading 'type')")
  | VKey k => ret (Some (type k))
  | _ => ret None
  end.

(** [result.usages] *)
Definition get_usages (result : value) : M (option (list string)) :=
  match result with
  | VUndefined => throw (TypeError "Cannot read properties of undefined (reading 'usages')")
  | VKey k => ret (usages k)
  | _ => ret None
  end.

(** [result.extractable = e; result.usages = us].  Class bodies are strict
    code, so the assignment throws on a primitive.  On a key it replaces both
    fields.  On any other object it adds two properties that nothing reads
    afterwards; they are not tracked. *)
Definition set_extractable_and_usages (result : value) (e : scalar) (us : list string)
  : M value :=
  match result with
  | VKey k =>
      ret (VKey {| type := type k; extractable := e; algorithm := algorithm k;
                   usages := Some us; handle := handle k |})
  | VUndefined => throw (TypeError "Cannot set properties of undefined (setting 'extractable')")
  | VBool _ => throw (TypeError "Cannot create property 'extractable' on boolean")
  | _ => ret result
  end.

(** ** Vocabulary of the properties *)

(** encrypt, decrypt, sign and verify. *)
Inductive keyed_operation : Type := Encrypt | Decrypt | Sign | Verify.

Definition op_name (o : keyed_operation) : string :=
  match o with
  | Encrypt => "encrypt"
  | Decrypt => "decrypt"
  | Sign => "sign"
  | Verify => "verify"
  end.

(** The promise of an executor that ends with [resolve(c)] when the method
    call completes normally and that is left with the error when it throws. *)
Definition settle (c : completion value) : promise :=
  match c with
  | Normal v => resolution v
  | Throw e => Rejected e
  end.

(** A method rejected with [e] and made no call to an algorithm method. *)
Definition rejects_without_provider_call
           (r : completion promise * list event) (e : error) : Prop :=
  r.1 = Normal (Rejected e) ∧ provider_calls r.2 = [].

(** [st'] continues [st] with calls to algorithm methods only. *)
Definition extends_with_calls (st st' : State) : Prop :=
  ∃ calls, trace st' = trace st ++ calls ∧ Forall (λ ev, is_Call ev = true) calls.

(** Code that reaches outside the class through algorithm methods only. *)
Definition calls_only {A} (m : M A) : Prop :=
  ∀ st, extends_with_calls st (m st).2.

Scheme value_promise_ind := Induction for value Sort Prop
  with promise_value_ind := Induction for promise Sort Prop.

(** A call of one of the seven methods that normalize the algorithm once,
    for the operation of their own name. *)
Inductive request : Type :=
| EncryptRequest (a : AlgorithmIdentifier) (key : CryptoKey) (data : bytes)
| DecryptRequest (a : AlgorithmIdentifier) (key : CryptoKey) (data : bytes)
| SignRequest (a : AlgorithmIdentifier) (key : CryptoKey) (data : bytes)
| VerifyRequest (a : AlgorithmIdentifier) (key : CryptoKey) (signature data : bytes)
| DigestRequest (a : AlgorithmIdentifier) (data : bytes)
| GenerateKeyRequest (a : AlgorithmIdentifier) (extractable_ : scalar)
                     (keyUsages : list string)
| ImportKeyRequest (format : string) (keyData : value) (a : AlgorithmIdentifier)
                   (extractable_ : scalar) (keyUsages : list string).

Definition request_method (r : request) : string :=
  match r with
  | EncryptRequest _ _ _ => "encrypt"
  | DecryptRequest _ _ _ => "decrypt"
  | SignRequest _ _ _ => "sign"
  | VerifyRequest _ _ _ _ => "verify"
  | DigestRequest _ _ => "digest"
  | GenerateKeyRequest _ _ _ => "generateKey"
  | ImportKeyRequest _ _ _ _ _ => "importKey"
  end.

Definition request_algorithm (r : request) : AlgorithmIdentifier :=
  match r with
  | EncryptRequest a _ _ | DecryptRequest a _ _ | SignRequest a _ _
  | VerifyRequest a _ _ _ | DigestRequest a _ | GenerateKeyRequest a _ _
  | ImportKeyRequest _ _ a _ _ => a
  end.

(** A call to an algorithm method, of this receiver and this name. *)
Definition is_call_of (this_ : Algorithm) (m : string) (ev : event) : Prop :=
  match ev with
  | Call this' m' _ => this' = this_ ∧ m' = m
  | Normalize _ _ => False
  end.

(** Code that calls nothing outside the class. *)
Definition quiet {A} (m : M A) : Prop :=
  ∀ st, trace (m st).2 = trace st.

(** Code that either calls nothing or makes the one call [this_.m(..)]. *)
Definition calls_once (this_ : Algorithm) (m : string) {A} (body : M A) : Prop :=
  ∀ st, trace (body st).2 = trace st
        ∨ ∃ args, trace (body st).2 = trace st ++ [Call this_ m args].

(** ** The class *)

Section SubtleCrypto.

(** [supportedAlgorithms] (./algorithms): its [normalize] function, which
    returns an algorithm object or an Error instance, and its table
    [supportedAlgorithms['exportKey']] of the algorithms that registered
    [exportKey], by name.  The table holds the registered names and nothing
    else (properties an object inherits are left out). *)
Context {AlgorithmClass : Type}.
Variable normalize : string → AlgorithmIdentifier → error + Algorithm.
Variable exportKey_registry : gmap string AlgorithmClass.

(** The method table of algorithm objects: [methods a "encrypt"] is
    [a.encrypt], [None] when [a] has no such property. *)
Variable methods : Algorithm → string → option method.

(** [recognizedKeyUsages] (./keys/recognizedKeyUsages): the list of
    recognized usages. *)
Variable recognizedKeyUsages : list string.

(** [JSON.stringify] and [new TextEncoder().encode] (text-encoding). *)
Variable JSON_stringify : value → option string.
Variable TextEncoder_encode : option string → bytes.

(** The body of the JsonWebKey constructor (./keys/JsonWebKey): the record
    it builds from the data, or the error it throws. *)
Variable JsonWebKey_constructor : value → error + JsonWebKey.

(** Modelled from the spec: [recognizedKeyUsages.normalize] is not among the
    sources.  The spec has the usages "deduplicated/normalized against the
    recognized operation-name set": the recognized usages that occur in the
    caller's list, each once. *)
Definition recognizedKeyUsages_normalize (keyUsages : list string) : list string :=
  List.filter (λ u, existsb (String.eqb u) keyUsages) recognizedKeyUsages.

(** Modelled from the spec: the JsonWebKey class is not among the sources.
    The spec has the dispatcher "coerce keyData into a KeyInterchangeRecord,
    failing MalformedInputError if the shape is invalid", the record being
    "a distinct type from raw byte sequences and from a CryptoKey":
    [new JsonWebKey(data)] throws what the constructor throws and otherwise
    yields the new instance. *)
Definition JsonWebKey_new (keyData : value) : M value :=
  match JsonWebKey_constructor keyData with
  | inl e => throw e
  | inr jwk => ret (VJwk jwk)
  end.

(** [supportedAlgorithms.normalize(op, algorithm)] *)
Definition supportedAlgorithms_normalize (op : string) (a : AlgorithmIdentifier)
  : M (error + Algorithm) :=
  emit (Normalize op a);;;
  ret (normalize op a).

(** [this_.m(args)]: calling a missing method throws before anything is
    invoked; otherwise the call is recorded and completes as the method
    does. *)
Definition invoke (this_ : Algorithm) (m : string) (args : list arg) : M value :=
  match methods this_ m with
  | None => throw (TypeError (m ++ " is not a function")%string)
  | Some f =>
      emit (Call this_ m args);;;
      λ st, (f args, st)
  end.

(** [!registeredAlgorithms[name]] *)
Definition not_registered (nm : string) : bool :=
  match exportKey_registry !! nm with
  | Some _ => false
  | None => true
  end.

Definition encrypt (algorithm_ : AlgorithmIdentifier) (key : CryptoKey) (data : bytes)
  : M promise :=
  let data := slice data in
  let* normalizedAlgorithm := supportedAlgorithms_normalize "encrypt" algorithm_ in
  match normalizedAlgorithm with
  | inl err => Promise_reject err
  | inr normalizedAlgorithm =>
      new_Promise (Some (
        when (negb (String.eqb (name normalizedAlgorithm) (name (algorithm key))))
          (throw (InvalidAccessError "Algorithm does not match key"));;;
        let* ok := includes (usages key) "encrypt" in
        when (negb ok)
          (throw (InvalidAccessError (usages_must_include "encrypt")));;;
        let* ciphertext :=
          invoke normalizedAlgorithm "encrypt"
                 [ADescriptor algorithm_; AKey key; ABytes data] in
        resolve ciphertext))
  end.

Definition decrypt (algorithm_ : AlgorithmIdentifier) (key : CryptoKey) (data : bytes)
  : M promise :=
  let* normalizedAlgorithm := supportedAlgorithms_normalize "decrypt" algorithm_ in
  match normalizedAlgorithm with
  | inl err => Promise_reject err
  | inr normalizedAlgorithm =>
      let data := slice data in
      new_Promise (Some (
        when (negb (String.eqb (name normalizedAlgorithm) (name (algorithm key))))
          (throw (InvalidAccessError "Algorithm does not match key"));;;
        let* ok := includes (usages key) "decrypt" in
        when (negb ok)
          (throw (InvalidAccessError (usages_must_include "decrypt")));;;
        let* plaintext :=
          invoke normalizedAlgorithm "decrypt"
                 [ADescriptor algorithm_; AKey key; ABytes data] in
        resolve plaintext))
  end.

Definition sign (algorithm_ : AlgorithmIdentifier) (key : CryptoKey) (data : bytes)
  : M promise :=
  let data := slice data in
  let* normalizedAlgorithm := supportedAlgorithms_normalize "sign" algorithm_ in
  match normalizedAlgorithm with
  | inl err => Promise_reject err
  | inr normalizedAlgorithm =>
      new_Promise (Some (
        when (negb (String.eqb (name normalizedAlgorithm) (name (algorithm key))))
          (throw (InvalidAccessError "Algorithm does not match key"));;;
        let* ok := includes (usages key) "sign" in
        when (negb ok)
          (throw (InvalidAccessError (usages_must_include "sign")));;;
        let* result := invoke normalizedAlgorithm "sign" [AKey key; ABytes data] in
        resolve result))
  end.

Definition verify (alg_ : AlgorithmIdentifier) (key : CryptoKey)
           (signature data : bytes) : M promise :=
  let signature := slice signature in
  let* normalizedAlgorithm := supportedAlgorithms_normalize "verify" alg_ in
  match normalizedAlgorithm with
  | inl err => Promise_reject err
  | inr normalizedAlgorithm =>
      let data := slice data in
      new_Promise (Some (
        when (negb (String.eqb (name normalizedAlgorithm) (name (algorithm key))))
          (throw (InvalidAccessError "Algorithm does not match key"));;;
        let* ok := includes (usages key) "verify" in
        when (negb ok)
          (throw (InvalidAccessError (usages_must_include "verify")));;;
        let* result :=
          invoke normalizedAlgorithm "verify"
                 [AKey key; ABytes signature; ABytes data] in
        resolve result))
  end.

Definition digest (algorithm_ : AlgorithmIdentifier) (data : bytes) : M promise :=
  let data := slice data in
  let* normalizedAlgorithm := supportedAlgorithms_normalize "digest" algorithm_ in
  match normalizedAlgorithm with
  | inl err => Promise_reject err
  | inr normalizedAlgorithm =>
      new_Promise (Some (
        try_catch
          (let* result :=
             invoke normalizedAlgorithm "digest" [ADescriptor algorithm_; ABytes data] in
           resolve result)
          (λ error, reject error)))
  end.

Definition generateKey (algorithm_ : AlgorithmIdentifier) (extractable_ : scalar)
           (keyUsages : list string) : M promise :=
  let* normalizedAlgorithm := supportedAlgorithms_normalize "generateKey" algorithm_ in
  match normalizedAlgorithm with
  | inl err => Promise_reject err
  | inr normalizedAlgorithm =>
      new_Promise (Some (
        try_catch
          (let* result :=
             invoke normalizedAlgorithm "generateKey"
                    [ADescriptor algorithm_; AScalar extractable_; AUsages keyUsages] in
           match result with
           | VKey k =>
               let restricted := restricted_type (type k) in
               let emptyUsages := empty_usages (usages k) in
               when (restricted && emptyUsages) (throw SyntaxError)
           | _ => ret tt
           end;;;
           match result with
           | VKeyPair _ privateKey =>
               when (empty_usages (usages privateKey)) (throw SyntaxError)
           | _ => ret tt
           end;;;
           resolve result)
          (λ error, reject error)))
  end.

Definition deriveKey (algorithm_ : AlgorithmIdentifier) (baseKey : CryptoKey)
           (derivedKeyType : AlgorithmIdentifier) (extractable_ : scalar)
           (keyUsages : list string) : M promise :=
  new_Promise None.

Definition deriveBits (algorithm_ : AlgorithmIdentifier) (baseKey : CryptoKey)
           (length_ : Z) : M promise :=
  new_Promise None.

Definition raw_format (format : string) : bool :=
  String.eqb format "raw" || String.eqb format "pkcs8" || String.eqb format "spki".

(** The first half of the [importKey] executor: the checks on [keyData]
    that depend on [format]. *)
Definition importKey_keyData (format : string) (keyData : value) : M value :=
  let* keyData :=
    if raw_format format then
      when (instanceof_JsonWebKey keyData) (throw (TypeError EmptyString));;;
      slice_value keyData
    else ret keyData in
  if String.eqb format "jwk" then
    let* keyData := JsonWebKey_new keyData in
    when (negb (instanceof_JsonWebKey keyData))
      (throw (TypeError "key is not a JSON Web Key"));;;
    ret keyData
  else ret keyData.

Definition importKey (format : string) (keyData : value)
           (algorithm_ : AlgorithmIdentifier) (extractable_ : scalar)
           (keyUsages : list string) : M promise :=
  let* normalizedAlgorithm := supportedAlgorithms_normalize "importKey" algorithm_ in
  match normalizedAlgorithm with
  | inl err => Promise_reject err
  | inr normalizedAlgorithm =>
      new_Promise (Some (
        let* keyData := importKey_keyData format keyData in
        try_catch
          (let* result :=
             invoke normalizedAlgorithm "importKey"
                    [AString format; AValue keyData; ADescriptor algorithm_;
                     AScalar extractable_; AUsages keyUsages] in
           let* result_type := get_type result in
           match result_type with
           | Some t =>
               if restricted_type t then
                 let* result_usages := get_usages result in
                 when (empty_usages result_usages) (throw SyntaxError)
               else ret tt
           | None => ret tt
           end;;;
           let* result :=
             set_extractable_and_usages result extractable_
               (recognizedKeyUsages_normalize keyUsages) in
           resolve result)
          (λ error, reject error)))
  end.

Definition exportKey (format : string) (key : CryptoKey) : M promise :=
  new_Promise (Some (
    try_catch
      (when (not_registered (name (algorithm key)))
         (throw (NotSupportedError (name (algorithm key))));;;
       when (strictly_false (extractable key))
         (throw (InvalidAccessError "Key is not extractable"));;;
       let* result := invoke (algorithm key) "exportKey" [AString format; AKey key] in
       resolve result)
      (λ error, reject error))).

(** Step 13 of [wrapKey]: the bytes to wrap.  For a format that is none of
    the four, [bytes] is never assigned. *)
Definition wrapKey_bytes (format : string) (exportedKey : value) : value :=
  if existsb (String.eqb format) ["raw"; "pkcs8"; "spki"] then exportedKey
  else if String.eqb format "jwk" then
    let json := JSON_stringify exportedKey in
    VBytes (TextEncoder_encode json)
  else VUndefined.

(** Step 14 of [wrapKey], the callback of the first [then]. *)
Definition wrapKey_callback (normalizedAlgorithm : Algorithm)
           (wrapAlgorithm : AlgorithmIdentifier) (wrappingKey : CryptoKey)
           (format : string) (exportedKey : value) : M value :=
  let bytes_ := wrapKey_bytes format exportedKey in
  match methods normalizedAlgorithm "wrapKey" with
  | Some _ =>
      invoke normalizedAlgorithm "wrapKey"
             [ADescriptor wrapAlgorithm; AKey wrappingKey; ABytes (Uint8Array_from bytes_)]
  | None =>
      match methods normalizedAlgorithm "encrypt" with
      | Some _ =>
          invoke normalizedAlgorithm "encrypt"
                 [ADescriptor wrapAlgorithm; AKey wrappingKey;
                  ABytes (Uint8Array_from bytes_)]
      | None =>
          reject (NotSupportedError (name normalizedAlgorithm));;;
          ret VUndefined
      end
  end.

(** Steps 7 to 15 of [wrapKey], the executor of the promise it returns.
    The chain [exportKey(..).then(..).then(resolve)] is returned from the
    executor, which ignores it: a rejection of the chain reaches nobody. *)
Definition wrapKey_executor (normalizedAlgorithm : Algorithm)
           (wrapAlgorithm : AlgorithmIdentifier) (format : string)
           (key wrappingKey : CryptoKey) : M unit :=
  try_catch
    (when (negb (String.eqb (name normalizedAlgorithm)
                            (name (algorithm wrappingKey))))
       (throw (InvalidAccessError
          "NormalizedAlgorthm name must be same as wrappingKey algorithm name"));;;
     let* ok := includes (usages wrappingKey) "wrapKey" in
     when (negb ok)
       (throw (InvalidAccessError
          ("Wrapping key usages must include "
             ++ double_quote ++ "wrapKey" ++ double_quote)%string));;;
     when (not_registered (name (algorithm key)))
       (throw (NotSupportedError (name (algorithm key))));;;
     when (strictly_false (extractable key))
       (throw (InvalidAccessError "Key is not extractable"));;;
     let* exported := exportKey format key in
     let* wrapped :=
       then_ exported
         (wrapKey_callback normalizedAlgorithm wrapAlgorithm wrappingKey format) in
     let* _ := then_ wrapped (λ v, resolve v;;; ret VUndefined) in
     ret tt)
    (λ error, reject error).

Definition wrapKey (format : string) (key wrappingKey : CryptoKey)
           (wrapAlgorithm : AlgorithmIdentifier) : M promise :=
  let* normalizedAlgorithm := supportedAlgorithms_normalize "wrapKey" wrapAlgorithm in
  let* normalizedAlgorithm :=
    match normalizedAlgorithm with
    | inl _ => supportedAlgorithms_normalize "encrypt" wrapAlgorithm
    | inr _ => ret normalizedAlgorithm
    end in
  match normalizedAlgorithm with
  | inl err => Promise_reject err
  | inr normalizedAlgorithm =>
      new_Promise (Some (
        wrapKey_executor normalizedAlgorithm wrapAlgorithm format key wrappingKey))
  end.

Definition unwrapKey (format : string) (wrappedKey : bytes) (unwrappingKey : CryptoKey)
           (unwrapAlgorithm unwrappedKeyAlgorithm : AlgorithmIdentifier)
           (exractable : scalar) (keyUsages : list string) : M promise :=
  new_Promise None.

(** The four operations that check a key the same way, under one name. *)
Definition perform (o : keyed_operation) (a : AlgorithmIdentifier) (key : CryptoKey)
           (signature data : bytes) : M promise :=
  match o with
  | Encrypt => encrypt a key data
  | Decrypt => decrypt a key data
  | Sign => sign a key data
  | Verify => verify a key signature data
  end.

(** The seven methods under one name. *)
Definition dispatch (r : request) : M promise :=
  match r with
  | EncryptRequest a key data => encrypt a key data
  | DecryptRequest a key data => decrypt a key data
  | SignRequest a key data => sign a key data
  | VerifyRequest a key signature data => verify a key signature data
  | DigestRequest a data => digest a data
  | GenerateKeyRequest a x keyUsages => generateKey a x keyUsages
  | ImportKeyRequest format keyData a x keyUsages =>
      importKey format keyData a x keyUsages
  end.

End SubtleCrypto.


(** ** A concrete installation *)

(** Two algorithms in the style of the library's own: AES-GCM (a secret key
    that encrypts, decrypts and exports; its [importKey] gives the key the
    usages it was asked for) and RSASSA-PKCS1-v1_5 (a key pair that signs and
    verifies; its [importKey] builds a private key that can sign).  The method
    bodies stand in for the cryptography. *)
Module Scenario.

Definition AES_GCM : Algorithm :=
  {| name := "AES-GCM"; params := [("length", SNumber 256)] |}.

Definition RSASSA : Algorithm :=
  {| name := "RSASSA-PKCS1-v1_5"; params := [("modulusLength", SNumber 2048)] |}.

(** An algorithm object whose [encrypt] always fails. *)
Definition AES_KW : Algorithm :=
  {| name := "AES-KW"; params := [("length", SNumber 128)] |}.

Definition iv : bytes := [Byte.x01; Byte.x02; Byte.x03].

Definition aes_gcm_iv : AlgorithmIdentifier :=
  AlgorithmDictionary [("name", SString "AES-GCM"); ("iv", SBytes iv)].

Definition aes_kw : AlgorithmIdentifier := AlgorithmName "AES-KW".

Definition rsassa : AlgorithmIdentifier := AlgorithmName "RSASSA-PKCS1-v1_5".

Definition rot13 : AlgorithmIdentifier := AlgorithmName "ROT13".

Definition algorithm_name (a : AlgorithmIdentifier) : string :=
  match a with
  | AlgorithmName s => s
  | AlgorithmDictionary (("name", SString s) :: _) => s
  | AlgorithmDictionary _ => EmptyString
  end.

Definition registered (op nm : string) : option Algorithm :=
  if String.eqb nm "AES-GCM" then
    if existsb (String.eqb op)
         ["encrypt"; "decrypt"; "generateKey"; "importKey"; "exportKey"]
    then Some AES_GCM else None
  else if String.eqb nm "AES-KW" then
    if existsb (String.eqb op) ["encrypt"; "importKey"; "exportKey"]
    then Some AES_KW else None
  else if String.eqb nm "RSASSA-PKCS1-v1_5" then
    if existsb (String.eqb op) ["sign"; "verify"; "generateKey"; "importKey"]
    then Some RSASSA else None
  else None.

Definition normalize (op : string) (a : AlgorithmIdentifier) : error + Algorithm :=
  match registered op (algorithm_name a) with
  | Some na => inr na
  | None => inl (NotSupportedError (op ++ ": " ++ algorithm_name a)%string)
  end.

Definition exportKey_registry : gmap string unit :=
  {[ "AES-GCM" := tt; "AES-KW" := tt ]}.

Definition recognizedKeyUsages : list string :=
  ["decrypt"; "deriveBits"; "deriveKey"; "encrypt"; "sign"; "unwrapKey"; "verify";
   "wrapKey"].

Definition aes_methods (self : Algorithm) (m : string) : option method :=
  if String.eqb m "encrypt" then
    Some (λ args, match args with
                  | [_; _; ABytes bs] => Normal (VBytes (iv ++ bs))
                  | _ => Throw (TypeError "encrypt: bad arguments")
                  end)
  else if String.eqb m "decrypt" then
    Some (λ args, match args with
                  | [_; _; ABytes bs] => Normal (VBytes (drop 3 bs))
                  | _ => Throw (TypeError "decrypt: bad arguments")
                  end)
  else if String.eqb m "importKey" then
    Some (λ args, match args with
                  | [_; AValue (VBytes bs); _; AScalar e; AUsages us] =>
                      Normal (VKey {| type := "secret"; extractable := e;
                                      algorithm := self; usages := Some us;
                                      handle := bs |})
                  | _ => Throw (DataError "importKey: bad key data")
                  end)
  else if String.eqb m "exportKey" then
    Some (λ args, match args with
                  | [_; AKey k] => Normal (VBytes (handle k))
                  | _ => Throw (TypeError "exportKey: bad arguments")
                  end)
  else None.

Definition methods (a : Algorithm) (m : string) : option method :=
  if String.eqb (name a) "AES-GCM" then aes_methods a m
  else if String.eqb (name a) "AES-KW" then
    if String.eqb m "encrypt" then
      Some (λ _, Throw (OperationError "AES-KW: data must be a multiple of 8 bytes"))
    else aes_methods a m
  else if String.eqb (name a) "RSASSA-PKCS1-v1_5" then
    if String.eqb m "sign" then
      Some (λ args, match args with
                    | [AKey k; ABytes bs] => Normal (VBytes (handle k ++ bs))
                    | _ => Throw (TypeError "sign: bad arguments")
                    end)
    else if String.eqb m "verify" then Some (λ _, Normal (VBool true))
    else if String.eqb m "importKey" then
      Some (λ args, match args with
                    | [_; AValue (VJwk jwk); _; _; _] =>
                        Normal (VKey {| type := "private"; extractable := SBool true;
                                        algorithm := a; usages := Some ["sign"];
                                        handle := [] |})
                    | _ => Throw (DataError "importKey: bad key data")
                    end)
    else None
  else None.

Definition JsonWebKey_constructor (data : value) : error + JsonWebKey :=
  match data with
  | VJwk jwk => inr jwk
  | _ => inl (TypeError "Invalid JsonWebKey")
  end.

Definition secret : bytes := [Byte.x2a; Byte.x2b].

Definition gcm_key : CryptoKey :=
  {| type := "secret"; extractable := SBool true; algorithm := AES_GCM;
     usages := Some ["encrypt"; "decrypt"; "wrapKey"]; handle := secret |}.

Definition kw_key : CryptoKey :=
  {| type := "secret"; extractable := SBool true; algorithm := AES_KW;
     usages := Some ["wrapKey"]; handle := secret |}.

(** A signing key that must stay inside: its algorithm registers no export. *)
Definition rsa_key : CryptoKey :=
  {| type := "private"; extractable := SBool false; algorithm := RSASSA;
     usages := Some ["sign"; "verify"]; handle := secret |}.

(** A key whose [extractable] was never set. *)
Definition gcm_key_no_flag : CryptoKey :=
  {| type := "secret"; extractable := SUndefined; algorithm := AES_GCM;
     usages := Some ["encrypt"]; handle := secret |}.

Definition locked_gcm_key : CryptoKey :=
  {| type := "secret"; extractable := SBool false; algorithm := AES_GCM;
     usages := Some ["encrypt"]; handle := secret |}.

Definition rsa_jwk : JsonWebKey :=
  {| kty := "RSA"; alg := Some "RS256"; ext := Some true; key_ops := None;
     material := [("n", "AQAB"); ("e", "AQAB"); ("d", "AQAB")] |}.

Definition message : bytes := [Byte.x68; Byte.x69].

(** Stand-ins for [JSON.stringify] (of a key record only its key type is
    written) and for the UTF-8 encoder. *)
Definition quoted (s : string) : string := (double_quote ++ s ++ double_quote)%string.

Definition JSON_stringify (v : value) : option string :=
  match v with
  | VUndefined => None
  | VBool true => Some "true"
  | VBool false => Some "false"
  | VJwk jwk => Some ("{" ++ quoted "kty" ++ ":" ++ quoted (kty jwk) ++ "}")%string
  | _ => Some "{}"
  end.

Definition TextEncoder_encode (s : option string) : bytes :=
  match s with
  | Some s => list_byte_of_string s
  | None => []
  end.

(** The class installed with these algorithms. *)
Definition subtle_encrypt := encrypt normalize methods.
Definition subtle_perform := perform normalize methods.
Definition subtle_exportKey := exportKey exportKey_registry methods.
Definition subtle_importKey :=
  importKey normalize methods recognizedKeyUsages JsonWebKey_constructor.
Definition subtle_wrapKey :=
  wrapKey normalize exportKey_registry methods JSON_stringify TextEncoder_encode.

Definition subtle_dispatch :=
  dispatch normalize methods recognizedKeyUsages JsonWebKey_constructor.
Definition subtle_generateKey := generateKey normalize methods.
Definition subtle_digest := digest normalize methods.

(** A second installation: the first one, and on top of it SHA-256 (digest),
    HMAC (generateKey gives a secret key with the usages asked for), ECDSA
    (generateKey gives a key pair: the public key verifies and the private
    key signs, each if asked for), AES-CTR (registered for wrapKey, with no
    method written yet), an AES-GCM export that answers jwk with a key
    record, and an AES-KW export that knows the raw format only. *)
Definition SHA_256 : Algorithm := {| name := "SHA-256"; params := [] |}.
Definition HMAC : Algorithm := {| name := "HMAC"; params := [("hash", SString "SHA-256")] |}.
Definition ECDSA : Algorithm :=
  {| name := "ECDSA"; params := [("namedCurve", SString "P-256")] |}.
Definition AES_CTR : Algorithm := {| name := "AES-CTR"; params := [("length", SNumber 128)] |}.

Definition sha_256 : AlgorithmIdentifier := AlgorithmName "SHA-256".
Definition hmac : AlgorithmIdentifier :=
  AlgorithmDictionary [("name", SString "HMAC"); ("hash", SString "SHA-256")].
Definition ecdsa : AlgorithmIdentifier :=
  AlgorithmDictionary [("name", SString "ECDSA"); ("namedCurve", SString "P-256")].
Definition aes_ctr : AlgorithmIdentifier := AlgorithmName "AES-CTR".

Definition normalize2 (op : string) (a : AlgorithmIdentifier) : error + Algorithm :=
  let nm := algorithm_name a in
  if String.eqb nm "SHA-256" && String.eqb op "digest" then inr SHA_256
  else if String.eqb nm "HMAC" && String.eqb op "generateKey" then inr HMAC
  else if String.eqb nm "ECDSA" && String.eqb op "generateKey" then inr ECDSA
  else if String.eqb nm "AES-CTR" && String.eqb op "wrapKey" then inr AES_CTR
  else normalize op a.

Definition oct_jwk (k : CryptoKey) : JsonWebKey :=
  {| kty := "oct"; alg := Some "A256GCM"; ext := Some true; key_ops := usages k;
     material := [("k", "Kis")] |}.

Definition methods2 (a : Algorithm) (m : string) : option method :=
  if String.eqb (name a) "SHA-256" then
    if String.eqb m "digest" then
      Some (λ args, match args with
                    | [_; ABytes bs] => Normal (VBytes (rev bs))
                    | _ => Throw (TypeError "digest: bad arguments")
                    end)
    else None
  else if String.eqb (name a) "HMAC" then
    if String.eqb m "generateKey" then
      Some (λ args, match args with
                    | [_; AScalar e; AUsages us] =>
                        Normal (VKey {| type := "secret"; extractable := e;
                                        algorithm := a; usages := Some us;
                                        handle := secret |})
                    | _ => Throw (TypeError "generateKey: bad arguments")
                    end)
    else None
  else if String.eqb (name a) "ECDSA" then
    if String.eqb m "generateKey" then
      Some (λ args, match args with
                    | [_; AScalar e; AUsages us] =>
                        Normal (VKeyPair
                                  {| type := "public"; extractable := SBool true;
                                     algorithm := a;
                                     usages := Some (List.filter (String.eqb "verify") us);
                                     handle := message |}
                                  {| type := "private"; extractable := e;
                                     algorithm := a;
                                     usages := Some (List.filter (String.eqb "sign") us);
                                     handle := secret |})
                    | _ => Throw (TypeError "generateKey: bad arguments")
                    end)
    else None
  else if String.eqb (name a) "AES-CTR" then None
  else if String.eqb (name a) "AES-GCM" && String.eqb m "exportKey" then
    Some (λ args, match args with
                  | [AString "jwk"; AKey k] => Normal (VJwk (oct_jwk k))
                  | [_; AKey k] => Normal (VBytes (handle k))
                  | _ => Throw (TypeError "exportKey: bad arguments")
                  end)
  else if String.eqb (name a) "AES-KW" && String.eqb m "exportKey" then
    Some (λ args, match args with
                  | [AString "raw"; AKey k] => Normal (VBytes (handle k))
                  | _ => Throw (NotSupportedError "AES-KW: format")
                  end)
  else methods a m.

(** A key that came without [usages]. *)
Definition gcm_key_no_usages : CryptoKey :=
  {| type := "secret"; extractable := SBool true; algorithm := AES_GCM;
     usages := None; handle := secret |}.

Definition ctr_key : CryptoKey :=
  {| type := "secret"; extractable := SBool true; algorithm := AES_CTR;
     usages := Some ["wrapKey"]; handle := secret |}.

Definition subtle2_digest := digest normalize2 methods2.
Definition subtle2_generateKey := generateKey normalize2 methods2.
Definition subtle2_exportKey := exportKey exportKey_registry methods2.
Definition subtle2_wrapKey :=
  wrapKey normalize2 exportKey_registry methods2 JSON_stringify TextEncoder_encode.

End Scenario.

(** ** Properties *)

Section Properties.

Context {AlgorithmClass : Type}.
Variable normalize : string → AlgorithmIdentifier → error + Algorithm.
Variable exportKey_registry : gmap string AlgorithmClass.
Variable methods : Algorithm → string → option method.
Variable recognizedKeyUsages : list string.
Variable JSON_stringify : value → option string.
Variable TextEncoder_encode : option string → bytes.
Variable JsonWebKey_constructor : value → error + JsonWebKey.

(** *** Small steps *)

#[local] Arguments String.eqb : simpl never.

Lemma includes_true (us : list string) (u : string) :
  In u us → existsb (String.eqb u) us = true.
Proof.
  intros Hin. apply existsb_exists. exists u. split; [exact Hin|].
  apply String.eqb_refl.
Qed.

Lemma strictly_false_spec (x : scalar) :
  strictly_false x = true ↔ x = SBool false.
Proof.
  split.
  - destruct x as [| |[|]| | |]; simpl; intros H; congruence.
  - intros ->. reflexivity.
Qed.

Lemma not_strictly_false (x : scalar) :
  x ≠ SBool false → strictly_false x = false.
Proof.
  intros Hx. destruct (strictly_false x) eqn:E; [|reflexivity].
  apply strictly_false_spec in E. contradiction.
Qed.

Lemma invoke_present this_ m args f st :
  methods this_ m = Some f →
  invoke methods this_ m args st
  = (f args, {| trace := trace st ++ [Call this_ m args]; settled := settled st |}).
Proof. intros Hm. unfold invoke. rewrite Hm. reflexivity. Qed.

Lemma invoke_absent this_ m args st :
  methods this_ m = None →
  invoke methods this_ m args st
  = (Throw (TypeError (m ++ " is not a function")%string), st).
Proof. intros Hm. unfold invoke. rewrite Hm. reflexivity. Qed.

Ltac unfold_class :=
  unfold perform, encrypt, decrypt, sign, verify, digest, generateKey, importKey,
    exportKey, wrapKey, wrapKey_executor, supportedAlgorithms_normalize, Promise_reject.

Ltac js_step :=
  unfold run, new_Promise, try_catch, bind, when, emit, ret, throw, includes,
    reject, resolve; simpl.

(** *** Key and algorithm must agree *)

(** C7.  encrypt, decrypt, sign and verify: when normalization succeeds
    and the name of the normalized algorithm differs from the name of the
    key's algorithm, the promise is rejected with InvalidAccessError and no
    algorithm method has been called. *)
Theorem mismatched_key_rejected_before_provider
        (o : keyed_operation) (a : AlgorithmIdentifier) (key : CryptoKey)
        (signature data : bytes) (na : Algorithm) :
  normalize (op_name o) a = inr na →
  name na ≠ name (algorithm key) →
  run (perform normalize methods o a key signature data)
  = (Normal (Rejected (InvalidAccessError "Algorithm does not match key")),
     [Normalize (op_name o) a])
  ∧ rejects_without_provider_call (run (perform normalize methods o a key signature data))
      (InvalidAccessError "Algorithm does not match key").
Proof.
  intros Hn Hne. apply String.eqb_neq in Hne.
  assert (run (perform normalize methods o a key signature data)
          = (Normal (Rejected (InvalidAccessError "Algorithm does not match key")),
             [Normalize (op_name o) a])) as Hrun.
  { destruct o; simpl in Hn; unfold_class; js_step; rewrite Hn; simpl;
      rewrite Hne; reflexivity. }
  split; [exact Hrun|]. rewrite Hrun. split; reflexivity.
Qed.

(** *** What the algorithm method receives *)

(** C1 (as amended).  encrypt, decrypt, sign and verify, once normalization
    and both checks have passed, call the method of the normalized algorithm
    object: the normalized record is the receiver of the call.  encrypt and
    decrypt pass the caller's own descriptor as first argument, then the key
    and the copied data; sign passes the key and the data, verify the key,
    the signature and the data, and neither passes an algorithm.  The
    promise settles as the method's completion does. *)
Theorem provider_called_on_normalized_algorithm
        (o : keyed_operation) (a : AlgorithmIdentifier) (key : CryptoKey)
        (signature data : bytes) (na : Algorithm) (us : list string) (f : method) :
  normalize (op_name o) a = inr na →
  name na = name (algorithm key) →
  usages key = Some us →
  In (op_name o) us →
  methods na (op_name o) = Some f →
  let args :=
    match o with
    | Encrypt | Decrypt => [ADescriptor a; AKey key; ABytes data]
    | Sign => [AKey key; ABytes data]
    | Verify => [AKey key; ABytes signature; ABytes data]
    end in
  run (perform normalize methods o a key signature data)
  = (Normal (settle (f args)), [Normalize (op_name o) a; Call na (op_name o) args]).
Proof.
  intros Hn Hname Hus Hin Hm args. apply String.eqb_eq in Hname.
  apply includes_true in Hin.
  destruct o; simpl in *; subst args; unfold_class; js_step; rewrite Hn; simpl;
    rewrite Hname, Hus; simpl; rewrite Hin; simpl;
    rewrite (invoke_present _ _ _ f) by exact Hm; simpl;
    destruct (f _) as [v|e]; reflexivity.
Qed.

(** *** exportKey *)

(** C2 (as amended).  A key whose [extractable] is [false] is never
    exported: exportKey rejects without calling the algorithm's export
    method.  The error is InvalidAccessError when the key's algorithm has
    registered exportKey, and NotSupportedError carrying the algorithm name
    when it has not, because the registration is checked first. *)
Theorem exportKey_not_extractable (format : string) (key : CryptoKey) :
  extractable key = SBool false →
  rejects_without_provider_call
    (run (exportKey exportKey_registry methods format key))
    (if not_registered exportKey_registry (name (algorithm key))
     then NotSupportedError (name (algorithm key))
     else InvalidAccessError "Key is not extractable").
Proof.
  intros Hx. unfold_class; js_step. rewrite Hx.
  destruct (not_registered _ _); simpl; split; reflexivity.
Qed.

(** C8.  The extractability check of exportKey compares with [false]
    strictly.  For a key of a registered algorithm whose [extractable] is
    anything but the boolean [false] (undefined, null, a number, a string,
    [true]) the check passes: the export method of the key's algorithm is
    called with the format and the key and the promise settles as that call
    completes.  (When that algorithm object has no export method the call
    itself throws a TypeError.) *)
Theorem exportKey_strict_false_only (format : string) (key : CryptoKey) :
  not_registered exportKey_registry (name (algorithm key)) = false →
  extractable key ≠ SBool false →
  run (exportKey exportKey_registry methods format key)
  = match methods (algorithm key) "exportKey" with
    | Some f =>
        (Normal (settle (f [AString format; AKey key])),
         [Call (algorithm key) "exportKey" [AString format; AKey key]])
    | None => (Normal (Rejected (TypeError "exportKey is not a function")), [])
    end.
Proof.
  intros Hreg Hx. apply not_strictly_false in Hx.
  unfold_class; js_step. rewrite Hreg, Hx. simpl.
  destruct (methods (algorithm key) "exportKey") as [f|] eqn:Hm.
  - rewrite (invoke_present _ _ _ f) by exact Hm. simpl.
    destruct (f _) as [v|e]; reflexivity.
  - rewrite invoke_absent by exact Hm. reflexivity.
Qed.

(** *** The stubs *)

(** C3 (what the code does).  deriveKey, deriveBits and unwrapKey
    construct a promise without an executor, so each call throws a
    TypeError synchronously: no promise is returned, and nothing is called. *)
Theorem stubs_throw_synchronously
        (a b : AlgorithmIdentifier) (key : CryptoKey) (x : scalar)
        (keyUsages : list string) (n : Z) (format : string) (wrapped : bytes) :
  let e := TypeError "Promise resolver undefined is not a function" in
  run (deriveKey a key b x keyUsages) = (Throw e, [])
  ∧ run (deriveBits a key n) = (Throw e, [])
  ∧ run (unwrapKey format wrapped key a b x keyUsages) = (Throw e, []).
Proof. repeat split. Qed.

(** *** Traces *)

Lemma extends_refl st : extends_with_calls st st.
Proof. exists []. split; [symmetry; apply app_nil_r | constructor]. Qed.

Lemma extends_trans st1 st2 st3 :
  extends_with_calls st1 st2 → extends_with_calls st2 st3 →
  extends_with_calls st1 st3.
Proof.
  intros [c1 [H1 F1]] [c2 [H2 F2]]. exists (c1 ++ c2). split.
  - rewrite H2, H1. symmetry. apply app_assoc.
  - apply Forall_app. split; assumption.
Qed.

Lemma extends_same_trace st st' :
  trace st' = trace st → extends_with_calls st st'.
Proof. intros H. exists []. split; [rewrite H; symmetry; apply app_nil_r | constructor]. Qed.

Lemma calls_only_ret {A} (a : A) : calls_only (ret a).
Proof. intros st. apply extends_refl. Qed.

Lemma calls_only_throw {A} (e : error) : calls_only (@throw A e).
Proof. intros st. apply extends_refl. Qed.

Lemma calls_only_bind {A B} (m : M A) (k : A → M B) :
  calls_only m → (∀ a, calls_only (k a)) → calls_only (bind m k).
Proof.
  intros Hm Hk st. unfold bind. specialize (Hm st).
  destruct (m st) as [[a|e] st']; simpl in *.
  - eapply extends_trans; [exact Hm | apply Hk].
  - exact Hm.
Qed.

Lemma calls_only_try_catch {A} (m : M A) (h : error → M A) :
  calls_only m → (∀ e, calls_only (h e)) → calls_only (try_catch m h).
Proof.
  intros Hm Hh st. unfold try_catch. specialize (Hm st).
  destruct (m st) as [[a|e] st']; simpl in *.
  - exact Hm.
  - eapply extends_trans; [exact Hm | apply Hh].
Qed.

Lemma calls_only_when (b : bool) (m : M unit) : calls_only m → calls_only (when b m).
Proof. intros Hm. destruct b; [exact Hm | apply calls_only_ret]. Qed.

Lemma calls_only_resolve (v : value) : calls_only (resolve v).
Proof.
  intros st. unfold resolve. destruct (settled st); apply extends_same_trace; reflexivity.
Qed.

Lemma calls_only_reject (e : error) : calls_only (reject e).
Proof.
  intros st. unfold reject. destruct (settled st); apply extends_same_trace; reflexivity.
Qed.

Lemma calls_only_includes us u : calls_only (includes us u).
Proof. destruct us; [apply calls_only_ret | apply calls_only_throw]. Qed.

Lemma calls_only_invoke this_ m args : calls_only (invoke methods this_ m args).
Proof.
  intros st. unfold invoke. destruct (methods this_ m) as [f|].
  - exists [Call this_ m args]. split; [reflexivity | repeat constructor].
  - apply extends_refl.
Qed.

Lemma calls_only_new_Promise (executor : option (M unit)) :
  (∀ body, executor = Some body → calls_only body) →
  calls_only (new_Promise executor).
Proof.
  intros Hb st. destruct executor as [body|]; [|apply extends_refl].
  specialize (Hb body eq_refl {| trace := trace st; settled := None |}).
  unfold new_Promise. destruct (body _) as [c st']. exact Hb.
Qed.

Lemma calls_only_then (p : promise) (cb : value → M value) :
  (∀ v, calls_only (cb v)) → calls_only (then_ p cb).
Proof.
  intros Hcb st. destruct p as [|v|e]; try apply extends_refl.
  simpl. specialize (Hcb v st). destruct (cb v st) as [[r|e] st']; exact Hcb.
Qed.

Lemma calls_only_exportKey format key :
  calls_only (exportKey exportKey_registry methods format key).
Proof.
  apply calls_only_new_Promise. intros body [= <-].
  apply calls_only_try_catch; [|intros; apply calls_only_reject].
  repeat (apply calls_only_bind; [|intros]);
    auto using calls_only_when, calls_only_throw, calls_only_invoke, calls_only_resolve.
Qed.

Lemma calls_only_wrapKey_executor na a format key wrappingKey :
  calls_only (wrapKey_executor exportKey_registry methods JSON_stringify
                TextEncoder_encode na a format key wrappingKey).
Proof.
  apply calls_only_try_catch; [|intros; apply calls_only_reject].
  repeat (apply calls_only_bind; [|intros]);
    auto using calls_only_when, calls_only_throw, calls_only_includes,
      calls_only_exportKey, calls_only_ret.
  - apply calls_only_then. intros v. unfold wrapKey_callback.
    destruct (methods na "wrapKey"); [apply calls_only_invoke|].
    destruct (methods na "encrypt"); [apply calls_only_invoke|].
    apply calls_only_bind; [apply calls_only_reject | intros; apply calls_only_ret].
  - apply calls_only_then. intros v.
    apply calls_only_bind; [apply calls_only_resolve | intros; apply calls_only_ret].
Qed.

Lemma calls_only_wrapKey_promise na a format key wrappingKey :
  calls_only (new_Promise (Some (wrapKey_executor exportKey_registry methods
                JSON_stringify TextEncoder_encode na a format key wrappingKey))).
Proof.
  apply calls_only_new_Promise. intros body [= <-].
  apply calls_only_wrapKey_executor.
Qed.

(** *** wrapKey *)

(** wrapKey after its two normalizations. *)
Lemma wrapKey_after_normalization format key wrappingKey a :
  wrapKey normalize exportKey_registry methods JSON_stringify TextEncoder_encode
          format key wrappingKey a initial
  = let promise_of na prefix :=
      new_Promise (Some (wrapKey_executor exportKey_registry methods JSON_stringify
                           TextEncoder_encode na a format key wrappingKey))
                  {| trace := prefix; settled := None |} in
    match normalize "wrapKey" a with
    | inr na => promise_of na [Normalize "wrapKey" a]
    | inl _ =>
        match normalize "encrypt" a with
        | inr na => promise_of na [Normalize "wrapKey" a; Normalize "encrypt" a]
        | inl e2 =>
            (Normal (Rejected e2),
             {| trace := [Normalize "wrapKey" a; Normalize "encrypt" a];
                settled := None |})
        end
    end.
Proof.
  unfold wrapKey, supportedAlgorithms_normalize, bind, emit, ret, Promise_reject, initial.
  simpl. destruct (normalize "wrapKey" a) as [e1|na]; simpl; [|reflexivity].
  destruct (normalize "encrypt" a) as [e2|na]; reflexivity.
Qed.

(** C6.  wrapKey asks [normalize] for the "wrapKey" operation first.  When
    that succeeds nothing else is normalized.  When it fails, the next thing
    wrapKey does is to ask again for the "encrypt" operation; when this
    fails too, the promise is rejected with the error of this second
    normalization and nothing else happens. *)
Theorem wrapKey_normalization_fallback
        (format : string) (key wrappingKey : CryptoKey) (a : AlgorithmIdentifier) :
  let r := run (wrapKey normalize exportKey_registry methods JSON_stringify
                  TextEncoder_encode format key wrappingKey a) in
  match normalize "wrapKey" a with
  | inr _ =>
      ∃ rest, r.2 = Normalize "wrapKey" a :: rest
              ∧ Forall (λ ev, is_Call ev = true) rest
  | inl _ =>
      ∃ rest, r.2 = Normalize "wrapKey" a :: Normalize "encrypt" a :: rest
              ∧ Forall (λ ev, is_Call ev = true) rest
              ∧ match normalize "encrypt" a with
                | inl e2 => r.1 = Normal (Rejected e2) ∧ rest = []
                | inr _ => True
                end
  end.
Proof.
  intros r. subst r. unfold run. rewrite wrapKey_after_normalization. cbv zeta.
  destruct (normalize "wrapKey" a) as [e1|na].
  - destruct (normalize "encrypt" a) as [e2|na].
    + exists []. repeat split; constructor.
    + match goal with |- context [new_Promise ?x ?st] =>
        destruct (calls_only_wrapKey_promise na a format key wrappingKey st)
          as [calls [Ht Hf]];
        destruct (new_Promise x st) as [c st'] end.
      simpl in *. exists calls. split; [exact Ht | split; [exact Hf | exact I]].
  - match goal with |- context [new_Promise ?x ?st] =>
      destruct (calls_only_wrapKey_promise na a format key wrappingKey st)
        as [calls [Ht Hf]];
      destruct (new_Promise x st) as [c st'] end.
    simpl in *. exists calls. split; [exact Ht | exact Hf].
Qed.

(** exportKey on a key that passes both checks, from any state. *)
Lemma exportKey_passes format key f st :
  not_registered exportKey_registry (name (algorithm key)) = false →
  strictly_false (extractable key) = false →
  methods (algorithm key) "exportKey" = Some f →
  exportKey exportKey_registry methods format key st
  = (Normal (settle (f [AString format; AKey key])),
     {| trace := trace st ++ [Call (algorithm key) "exportKey" [AString format; AKey key]];
        settled := settled st |}).
Proof.
  intros Hreg Hx Hm. unfold exportKey, new_Promise, try_catch, bind, when.
  rewrite Hreg, Hx. unfold ret. rewrite (invoke_present _ _ _ f) by exact Hm. simpl.
  destruct (f _) as [v|e]; reflexivity.
Qed.

Lemma wrapKey_bytes_unknown_format format exportedKey :
  ¬ In format ["raw"; "pkcs8"; "spki"; "jwk"] →
  wrapKey_bytes JSON_stringify TextEncoder_encode format exportedKey = VUndefined.
Proof.
  intros Hf. unfold wrapKey_bytes.
  destruct (existsb (String.eqb format) ["raw"; "pkcs8"; "spki"]) eqn:E.
  - apply existsb_exists in E. destruct E as [x [Hin Hx]].
    apply String.eqb_eq in Hx. subst x. exfalso. apply Hf.
    destruct Hin as [H|[H|[H|[]]]]; rewrite <- H; simpl; auto.
  - destruct (String.eqb format "jwk") eqn:E'; [|reflexivity].
    apply String.eqb_eq in E'. exfalso. apply Hf. rewrite E'. simpl. auto.
Qed.

(** A fulfilled promise is never fulfilled with a promise. *)
Lemma resolution_fulfilled (v w : value) :
  resolution v = Fulfilled w → resolution w = Fulfilled w.
Proof.
  revert w.
  induction v using value_promise_ind
    with (P0 := λ p, ∀ w, match p with
                          | Fulfilled v' => resolution v' = Fulfilled w
                          | _ => False
                          end → resolution w = Fulfilled w);
    simpl; intros w H; try (injection H as <-; reflexivity).
  - apply IHv. destruct p; try discriminate; exact H.
  - contradiction.
  - apply IHv. exact H.
  - contradiction.
Qed.

(** The executor of wrapKey once the checks have passed and the export has
    fulfilled: the callback's call decides, and only a fulfilment of it
    reaches the promise. *)
Lemma wrapKey_promise_after_export na a format key wrappingKey us f v st :
  name na = name (algorithm wrappingKey) →
  usages wrappingKey = Some us →
  In "wrapKey" us →
  not_registered exportKey_registry (name (algorithm key)) = false →
  extractable key ≠ SBool false →
  methods (algorithm key) "exportKey" = Some f →
  settle (f [AString format; AKey key]) = Fulfilled v →
  let exported := Call (algorithm key) "exportKey" [AString format; AKey key] in
  let args := [ADescriptor a; AKey wrappingKey;
               ABytes (Uint8Array_from
                         (wrapKey_bytes JSON_stringify TextEncoder_encode format v))] in
  let outcome (g : method) :=
    match settle (g args) with
    | Fulfilled w => Fulfilled w
    | _ => Pending
    end in
  new_Promise (Some (wrapKey_executor exportKey_registry methods JSON_stringify
                       TextEncoder_encode na a format key wrappingKey)) st
  = match methods na "wrapKey", methods na "encrypt" with
    | Some g, _ =>
        (Normal (outcome g),
         {| trace := trace st ++ [exported; Call na "wrapKey" args];
            settled := settled st |})
    | None, Some g =>
        (Normal (outcome g),
         {| trace := trace st ++ [exported; Call na "encrypt" args];
            settled := settled st |})
    | None, None =>
        (Normal (Rejected (NotSupportedError (name na))),
         {| trace := trace st ++ [exported]; settled := settled st |})
    end.
Proof.
  intros Hname Hus Hin Hreg Hx Hm Hexp exported args outcome.
  apply String.eqb_eq in Hname. apply includes_true in Hin.
  apply not_strictly_false in Hx.
  unfold new_Promise, wrapKey_executor, try_catch, bind, when, includes.
  rewrite Hname, Hus. unfold ret. simpl. rewrite Hin, Hreg, Hx. simpl.
  rewrite (exportKey_passes _ _ f) by assumption. rewrite Hexp. simpl.
  unfold wrapKey_callback. fold args.
  destruct (methods na "wrapKey") as [g|] eqn:Hw.
  - rewrite (invoke_present _ _ _ g) by exact Hw. simpl. subst outcome. simpl.
    destruct (g args) as [r|e]; simpl; [|rewrite <- app_assoc; reflexivity].
    destruct (resolution r) as [|w|e] eqn:Hr; simpl;
      try (rewrite <- app_assoc; reflexivity).
    unfold bind, resolve, ret. simpl. rewrite (resolution_fulfilled r w Hr).
    rewrite <- app_assoc. reflexivity.
  - destruct (methods na "encrypt") as [g|] eqn:He.
    + rewrite (invoke_present _ _ _ g) by exact He. simpl. subst outcome. simpl.
      destruct (g args) as [r|e]; simpl; [|rewrite <- app_assoc; reflexivity].
      destruct (resolution r) as [|w|e] eqn:Hr; simpl;
        try (rewrite <- app_assoc; reflexivity).
      unfold bind, resolve, ret. simpl. rewrite (resolution_fulfilled r w Hr).
      rewrite <- app_assoc. reflexivity.
    + unfold bind, reject, resolve, ret. simpl. reflexivity.
Qed.

(** C9.  wrapKey with a format that is none of raw, pkcs8, spki and jwk:
    nothing rejects the format.  Once the checks have passed and the export
    has fulfilled, the wrapKey method of the normalized algorithm, or its
    encrypt method when it has no wrapKey, is called with the caller's
    descriptor, the wrapping key and the empty byte sequence. *)
Theorem wrapKey_unknown_format_wraps_nothing
        (format : string) (key wrappingKey : CryptoKey) (a : AlgorithmIdentifier)
        (na : Algorithm) (us : list string) (f : method) (v : value) :
  ¬ In format ["raw"; "pkcs8"; "spki"; "jwk"] →
  match normalize "wrapKey" a with
  | inl _ => normalize "encrypt" a
  | inr x => inr x
  end = inr na →
  name na = name (algorithm wrappingKey) →
  usages wrappingKey = Some us →
  In "wrapKey" us →
  not_registered exportKey_registry (name (algorithm key)) = false →
  extractable key ≠ SBool false →
  methods (algorithm key) "exportKey" = Some f →
  settle (f [AString format; AKey key]) = Fulfilled v →
  let r := run (wrapKey normalize exportKey_registry methods JSON_stringify
                  TextEncoder_encode format key wrappingKey a) in
  let exported := Call (algorithm key) "exportKey" [AString format; AKey key] in
  let args := [ADescriptor a; AKey wrappingKey; ABytes []] in
  wrapKey_bytes JSON_stringify TextEncoder_encode format v = VUndefined
  ∧ Uint8Array_from VUndefined = []
  ∧ match methods na "wrapKey", methods na "encrypt" with
    | Some _, _ => provider_calls r.2 = [exported; Call na "wrapKey" args]
    | None, Some _ => provider_calls r.2 = [exported; Call na "encrypt" args]
    | None, None => True
    end.
Proof.
  intros Hf Hn Hname Hus Hin Hreg Hx Hm Hexp r exported args. subst r.
  split; [exact (wrapKey_bytes_unknown_format format v Hf)|]. split; [reflexivity|].
  unfold run. rewrite wrapKey_after_normalization. cbv zeta.
  pose proof (wrapKey_promise_after_export na a format key wrappingKey us f v) as Hp.
  cbv zeta in Hp. rewrite (wrapKey_bytes_unknown_format format v Hf) in Hp.
  simpl Uint8Array_from in Hp. fold exported args in Hp.
  destruct (normalize "wrapKey" a) as [e1|na1].
  - rewrite Hn, Hp by assumption.
    destruct (methods na "wrapKey"); [reflexivity|].
    destruct (methods na "encrypt"); [reflexivity | exact I].
  - injection Hn as ->. rewrite Hp by assumption.
    destruct (methods na "wrapKey"); [reflexivity|].
    destruct (methods na "encrypt"); [reflexivity | exact I].
Qed.

(** *** importKey *)

(** C10.  importKey with format jwk: whatever [new JsonWebKey(keyData)]
    returns is an instance of JsonWebKey, so the check that follows never
    throws its TypeError.  The step either throws the constructor's own
    error or goes on with the new instance. *)
Theorem importKey_jwk_check_never_fails (keyData : value) (st : State) :
  (∀ v st', JsonWebKey_new JsonWebKey_constructor keyData st = (Normal v, st') →
            instanceof_JsonWebKey v = true)
  ∧ match JsonWebKey_constructor keyData with
    | inl e => importKey_keyData JsonWebKey_constructor "jwk" keyData st = (Throw e, st)
    | inr jwk =>
        importKey_keyData JsonWebKey_constructor "jwk" keyData st
        = (Normal (VJwk jwk), st)
    end.
Proof.
  unfold importKey_keyData, JsonWebKey_new, bind, when, ret, throw. simpl.
  destruct (JsonWebKey_constructor keyData) as [e|jwk]; simpl.
  - split; [intros v st' H; discriminate | reflexivity].
  - split; [intros v st' [= <- _]; reflexivity | reflexivity].
Qed.

(** importKey tests the usages of the key the algorithm built and then
    replaces them with the normalized usages of the caller. *)
Lemma importKey_usages_replaced format keyData keyData' a x keyUsages na f k :
  normalize "importKey" a = inr na →
  (∀ st, importKey_keyData JsonWebKey_constructor format keyData st
         = (Normal keyData', st)) →
  methods na "importKey" = Some f →
  f [AString format; AValue keyData'; ADescriptor a; AScalar x; AUsages keyUsages]
  = Normal (VKey k) →
  restricted_type (type k) = true →
  (run (importKey normalize methods recognizedKeyUsages JsonWebKey_constructor
          format keyData a x keyUsages)).1
  = Normal (if empty_usages (usages k) then Rejected SyntaxError
            else Fulfilled (VKey {| type := type k; extractable := x;
                                    algorithm := algorithm k;
                                    usages := Some (recognizedKeyUsages_normalize
                                                      recognizedKeyUsages keyUsages);
                                    handle := handle k |})).
Proof.
  intros Hn Hkd Hm Hf Hr. unfold importKey, supportedAlgorithms_normalize, run.
  unfold bind at 1. simpl. rewrite Hn. unfold new_Promise, bind at 1. rewrite Hkd.
  unfold try_catch, bind. rewrite (invoke_present _ _ _ f) by exact Hm. rewrite Hf.
  simpl. rewrite Hr. simpl. destruct (empty_usages (usages k)); reflexivity.
Qed.

(** generateKey tests the usages of the key it resolves with. *)
Lemma generateKey_restricted_key_has_usages a x keyUsages na f k :
  normalize "generateKey" a = inr na →
  methods na "generateKey" = Some f →
  f [ADescriptor a; AScalar x; AUsages keyUsages] = Normal (VKey k) →
  restricted_type (type k) = true →
  (run (generateKey normalize methods a x keyUsages)).1
  = Normal (if empty_usages (usages k) then Rejected SyntaxError
            else Fulfilled (VKey k)).
Proof.
  intros Hn Hm Hf Hr. unfold generateKey, supportedAlgorithms_normalize, run.
  unfold bind at 1. simpl. rewrite Hn. unfold new_Promise, try_catch, bind.
  rewrite (invoke_present _ _ _ f) by exact Hm. rewrite Hf. simpl. rewrite Hr.
  destruct (empty_usages (usages k)); reflexivity.
Qed.

(** *** Errors of algorithm methods *)

(** wrapKey loses the error of a failed export: the chain is rejected, the
    promise wrapKey returned is not. *)
Lemma wrapKey_export_error_never_settles na a format key wrappingKey us f e st :
  name na = name (algorithm wrappingKey) →
  usages wrappingKey = Some us →
  In "wrapKey" us →
  not_registered exportKey_registry (name (algorithm key)) = false →
  extractable key ≠ SBool false →
  methods (algorithm key) "exportKey" = Some f →
  settle (f [AString format; AKey key]) = Rejected e →
  (new_Promise (Some (wrapKey_executor exportKey_registry methods JSON_stringify
                        TextEncoder_encode na a format key wrappingKey)) st).1
  = Normal Pending.
Proof.
  intros Hname Hus Hin Hreg Hx Hm Hexp.
  apply String.eqb_eq in Hname. apply includes_true in Hin.
  apply not_strictly_false in Hx.
  unfold new_Promise, wrapKey_executor, try_catch, bind, when, includes.
  rewrite Hname, Hus. unfold ret. simpl. rewrite Hin, Hreg, Hx. simpl.
  rewrite (exportKey_passes _ _ f) by assumption. rewrite Hexp. reflexivity.
Qed.

(** X22.  digest, which takes no key and makes no check: once the algorithm
    is normalized, its digest method is called with the caller's descriptor
    and the copied data, and the promise settles as that call does, fulfilled
    with what it returns or rejected with what it throws. *)
Lemma digest_settles_as_provider a data na f :
  normalize "digest" a = inr na →
  methods na "digest" = Some f →
  run (digest normalize methods a data)
  = (Normal (settle (f [ADescriptor a; ABytes data])),
     [Normalize "digest" a; Call na "digest" [ADescriptor a; ABytes data]]).
Proof.
  intros Hn Hm. unfold digest, supportedAlgorithms_normalize, run.
  unfold bind at 1. simpl. rewrite Hn. unfold new_Promise, try_catch, bind.
  rewrite (invoke_present _ _ _ f) by exact Hm. simpl.
  destruct (f _) as [v|e]; reflexivity.
Qed.

(** *** Normalization and the checks on the key *)

Lemma includes_false (us : list string) (u : string) :
  ¬ In u us → existsb (String.eqb u) us = false.
Proof.
  intros Hnin. destruct (existsb (String.eqb u) us) eqn:E; [|reflexivity].
  apply existsb_exists in E. destruct E as [x [Hin Hx]].
  apply String.eqb_eq in Hx. subst x. contradiction.
Qed.

(** X1.  encrypt, decrypt, sign, verify, digest, generateKey and importKey:
    when [normalize] returns an error for the method's operation, the promise
    is rejected with that very error and [normalize] is all that was called. *)
Theorem normalization_failure_rejects (r : request) (e : error) :
  normalize (request_method r) (request_algorithm r) = inl e →
  run (dispatch normalize methods recognizedKeyUsages JsonWebKey_constructor r)
  = (Normal (Rejected e), [Normalize (request_method r) (request_algorithm r)]).
Proof.
  intros Hn. destruct r; simpl in Hn; unfold dispatch; unfold_class; js_step;
    rewrite Hn; reflexivity.
Qed.

(** X2.  encrypt, decrypt, sign and verify with a key of the right algorithm
    whose usages lack the operation: the promise is rejected with
    InvalidAccessError and no algorithm method is called. *)
Theorem missing_usage_rejected_before_provider
        (o : keyed_operation) (a : AlgorithmIdentifier) (key : CryptoKey)
        (signature data : bytes) (na : Algorithm) (us : list string) :
  normalize (op_name o) a = inr na →
  name na = name (algorithm key) →
  usages key = Some us →
  ¬ In (op_name o) us →
  run (perform normalize methods o a key signature data)
  = (Normal (Rejected (InvalidAccessError (usages_must_include (op_name o)))),
     [Normalize (op_name o) a]).
Proof.
  intros Hn Hname Hus Hnin. apply String.eqb_eq in Hname. apply includes_false in Hnin.
  destruct o; simpl in *; unfold_class; js_step; rewrite Hn; simpl;
    rewrite Hname, Hus; simpl; rewrite Hnin; reflexivity.
Qed.

(** X3.  encrypt, decrypt, sign and verify with a key that has no [usages]
    at all: reading [includes] of the missing array throws inside the
    executor, so the promise is rejected with a TypeError, and no algorithm
    method is called. *)
Theorem key_without_usages_rejected
        (o : keyed_operation) (a : AlgorithmIdentifier) (key : CryptoKey)
        (signature data : bytes) (na : Algorithm) :
  normalize (op_name o) a = inr na →
  name na = name (algorithm key) →
  usages key = None →
  ∃ message,
    run (perform normalize methods o a key signature data)
    = (Normal (Rejected (TypeError message)), [Normalize (op_name o) a]).
Proof.
  intros Hn Hname Hus. apply String.eqb_eq in Hname.
  eexists. destruct o; simpl in *; unfold_class; js_step; rewrite Hn; simpl;
    rewrite Hname, Hus; reflexivity.
Qed.

(** [new Promise(executor)] with an executor never throws. *)
Lemma new_Promise_returns (body : M unit) (st : State) :
  ∃ p st', new_Promise (Some body) st = (Normal p, st').
Proof. unfold new_Promise. destruct (body _) as [c st']. eauto. Qed.

(** X4.  Every method other than the three stubs returns a promise: whatever
    goes wrong is delivered as a rejection, nothing is thrown to the caller. *)
Theorem methods_return_promises :
  (∀ r, ∃ p, (run (dispatch normalize methods recognizedKeyUsages
                     JsonWebKey_constructor r)).1 = Normal p)
  ∧ (∀ format key,
       ∃ p, (run (exportKey exportKey_registry methods format key)).1 = Normal p)
  ∧ (∀ format key wrappingKey a,
       ∃ p, (run (wrapKey normalize exportKey_registry methods JSON_stringify
                    TextEncoder_encode format key wrappingKey a)).1 = Normal p).
Proof.
  assert (∀ (body : M unit) st,
            ∃ p, (let '(c, st') := new_Promise (Some body) st in (c, trace st')).1
                 = Normal p) as Hnew.
  { intros body st. destruct (new_Promise_returns body st) as [p [st' ->]]. eauto. }
  split; [|split].
  - intros r. destruct r; unfold dispatch; unfold_class;
      unfold run, bind, emit; cbv beta iota zeta;
      (destruct (normalize _ _) as [e|na]; [simpl; eauto | apply Hnew]).
  - intros format key. unfold run, exportKey. apply Hnew.
  - intros format key wrappingKey a. unfold run.
    rewrite wrapKey_after_normalization. cbv zeta.
    destruct (normalize "wrapKey" a) as [e1|na]; [|apply Hnew].
    destruct (normalize "encrypt" a) as [e2|na]; [simpl; eauto | apply Hnew].
Qed.

(** *** One call at most *)

Lemma quiet_ret {A} (a : A) : quiet (ret a).
Proof. intros st. reflexivity. Qed.

Lemma quiet_throw {A} (e : error) : quiet (@throw A e).
Proof. intros st. reflexivity. Qed.

Lemma quiet_bind {A B} (m : M A) (k : A → M B) :
  quiet m → (∀ a, quiet (k a)) → quiet (bind m k).
Proof.
  intros Hm Hk st. unfold bind. specialize (Hm st).
  destruct (m st) as [[a|e] st']; simpl in *; [|exact Hm].
  rewrite Hk. exact Hm.
Qed.

Lemma quiet_try_catch {A} (m : M A) (h : error → M A) :
  quiet m → (∀ e, quiet (h e)) → quiet (try_catch m h).
Proof.
  intros Hm Hh st. unfold try_catch. specialize (Hm st).
  destruct (m st) as [[a|e] st']; simpl in *; [exact Hm|].
  rewrite Hh. exact Hm.
Qed.

Lemma quiet_when (b : bool) (m : M unit) : quiet m → quiet (when b m).
Proof. intros Hm. destruct b; [exact Hm | apply quiet_ret]. Qed.

Lemma quiet_resolve (v : value) : quiet (resolve v).
Proof. intros st. unfold resolve. destruct (settled st); reflexivity. Qed.

Lemma quiet_reject (e : error) : quiet (reject e).
Proof. intros st. unfold reject. destruct (settled st); reflexivity. Qed.

Lemma quiet_includes us u : quiet (includes us u).
Proof. destruct us; [apply quiet_ret | apply quiet_throw]. Qed.

Lemma quiet_get_type result : quiet (get_type result).
Proof. destruct result; first [apply quiet_ret | apply quiet_throw]. Qed.

Lemma quiet_get_usages result : quiet (get_usages result).
Proof. destruct result; first [apply quiet_ret | apply quiet_throw]. Qed.

Lemma quiet_set_extractable_and_usages result x us :
  quiet (set_extractable_and_usages result x us).
Proof. destruct result; first [apply quiet_ret | apply quiet_throw]. Qed.

Lemma quiet_slice_value keyData : quiet (slice_value keyData).
Proof. destruct keyData; first [apply quiet_ret | apply quiet_throw]. Qed.

Lemma quiet_JsonWebKey_new keyData : quiet (JsonWebKey_new JsonWebKey_constructor keyData).
Proof.
  unfold JsonWebKey_new. destruct (JsonWebKey_constructor keyData);
    [apply quiet_throw | apply quiet_ret].
Qed.

Ltac quiet_step :=
  first [ apply quiet_ret | apply quiet_throw | apply quiet_resolve | apply quiet_reject
        | apply quiet_includes | apply quiet_get_type | apply quiet_get_usages
        | apply quiet_set_extractable_and_usages | apply quiet_slice_value
        | apply quiet_JsonWebKey_new
        | apply quiet_when
        | apply quiet_bind; [|intros]
        | apply quiet_try_catch; [|intros]
        | progress cbv zeta
        | match goal with
          | |- quiet (match ?x with _ => _ end) => destruct x
          end ].

Ltac quiet_tac := repeat quiet_step.

Lemma quiet_importKey_keyData format keyData :
  quiet (importKey_keyData JsonWebKey_constructor format keyData).
Proof. unfold importKey_keyData. quiet_tac. Qed.

Lemma calls_once_quiet this_ m {A} (body : M A) : quiet body → calls_once this_ m body.
Proof. intros Hq st. left. apply Hq. Qed.

Lemma calls_once_invoke this_ m args : calls_once this_ m (invoke methods this_ m args).
Proof.
  intros st. unfold invoke. destruct (methods this_ m) as [f|].
  - right. exists args. reflexivity.
  - left. reflexivity.
Qed.

Lemma calls_once_bind_l this_ m {A B} (body : M A) (k : A → M B) :
  quiet body → (∀ a, calls_once this_ m (k a)) → calls_once this_ m (bind body k).
Proof.
  intros Hq Hk st. unfold bind. specialize (Hq st).
  destruct (body st) as [[a|e] st']; simpl in *; [|left; exact Hq].
  rewrite <- Hq. apply Hk.
Qed.

Lemma calls_once_bind_r this_ m {A B} (body : M A) (k : A → M B) :
  calls_once this_ m body → (∀ a, quiet (k a)) → calls_once this_ m (bind body k).
Proof.
  intros Hb Hk st. unfold bind. specialize (Hb st).
  destruct (body st) as [[a|e] st']; simpl in *; [|exact Hb].
  destruct Hb as [Hb|[args Hb]]; [left | right; exists args]; rewrite Hk; exact Hb.
Qed.

Lemma calls_once_try_catch this_ m {A} (body : M A) (h : error → M A) :
  calls_once this_ m body → (∀ e, quiet (h e)) → calls_once this_ m (try_catch body h).
Proof.
  intros Hb Hh st. unfold try_catch. specialize (Hb st).
  destruct (body st) as [[a|e] st']; simpl in *; [exact Hb|].
  destruct Hb as [Hb|[args Hb]]; [left | right; exists args]; rewrite Hh; exact Hb.
Qed.

Lemma calls_once_new_Promise this_ m (body : M unit) :
  calls_once this_ m body → calls_once this_ m (new_Promise (Some body)).
Proof.
  intros Hb st. specialize (Hb {| trace := trace st; settled := None |}).
  unfold new_Promise. destruct (body _) as [c st']. exact Hb.
Qed.

Ltac calls_once_tac :=
  first [ apply calls_once_invoke
        | apply calls_once_quiet; solve [quiet_tac]
        | apply calls_once_new_Promise; calls_once_tac
        | apply calls_once_try_catch; [calls_once_tac | intros; solve [quiet_tac]]
        | apply calls_once_bind_l; [solve [quiet_tac] | intros; calls_once_tac]
        | apply calls_once_bind_r; [calls_once_tac | intros; solve [quiet_tac]] ].

(** X5.  encrypt, decrypt, sign, verify, digest, generateKey and importKey
    ask [normalize] first and exactly once, for the operation of their own
    name.  After that they call at most one algorithm method, and it is the
    method of that name of the object [normalize] returned: never a method of
    the key's own algorithm object, never another method. *)
Theorem dispatch_calls_normalized_method_at_most_once (r : request) :
  ∃ calls,
    (run (dispatch normalize methods recognizedKeyUsages JsonWebKey_constructor r)).2
    = Normalize (request_method r) (request_algorithm r) :: calls
    ∧ (List.length calls ≤ 1)%nat
    ∧ Forall (λ ev, ∃ na, normalize (request_method r) (request_algorithm r) = inr na
                          ∧ is_call_of na (request_method r) ev) calls.
Proof.
  assert (∀ op a na (body : M unit),
            normalize op a = inr na → calls_once na op body →
            ∃ calls,
              (let '(c, st) := new_Promise (Some body)
                                 {| trace := [Normalize op a]; settled := None |}
               in (c, trace st)).2 = Normalize op a :: calls
              ∧ (List.length calls ≤ 1)%nat
              ∧ Forall (λ ev, ∃ na', @inr error Algorithm na = inr na'
                                     ∧ is_call_of na' op ev) calls)
    as Hone.
  { intros op a na body Hn Hb.
    destruct (calls_once_new_Promise na op body Hb
                {| trace := [Normalize op a]; settled := None |}) as [H|[args H]];
      destruct (new_Promise _ _) as [c st]; simpl in *; rewrite H.
    - exists []. split; [reflexivity | split; [simpl; lia | apply List.Forall_nil]].
    - exists [Call na op args]. split; [reflexivity | split; [simpl; lia |]].
      apply List.Forall_cons; [|apply List.Forall_nil].
      exists na. repeat split. }
  destruct r; unfold dispatch; unfold_class; unfold run, bind, emit;
    cbv beta iota zeta;
    (destruct (normalize _ _) as [e|na] eqn:Hn;
     [ exists []; split; [reflexivity | split; [simpl; lia | apply List.Forall_nil] ]
     | apply (Hone _ _ na _ Hn); calls_once_tac ]).
Qed.

Lemma calls_once_exportKey format key :
  calls_once (algorithm key) "exportKey" (exportKey exportKey_registry methods format key).
Proof. unfold exportKey. calls_once_tac. Qed.

(** X6.  exportKey never asks [normalize]; it calls at most one algorithm
    method, the [exportKey] method of the key's own algorithm object. *)
Theorem exportKey_calls_key_algorithm_at_most_once (format : string) (key : CryptoKey) :
  (run (exportKey exportKey_registry methods format key)).2 = []
  ∨ ∃ args, (run (exportKey exportKey_registry methods format key)).2
            = [Call (algorithm key) "exportKey" args].
Proof.
  pose proof (calls_once_exportKey format key initial) as Hc. unfold run.
  destruct (exportKey _ _ _ _ initial) as [c st]. exact Hc.
Qed.

(** X7.  exportKey of a key whose algorithm has not registered exportKey:
    the promise is rejected with NotSupportedError carrying the algorithm
    name, whatever the key's [extractable] is, and nothing is called. *)
Theorem exportKey_unregistered_algorithm (format : string) (key : CryptoKey) :
  not_registered exportKey_registry (name (algorithm key)) = true →
  run (exportKey exportKey_registry methods format key)
  = (Normal (Rejected (NotSupportedError (name (algorithm key)))), []).
Proof. intros Hreg. unfold_class; js_step. rewrite Hreg. reflexivity. Qed.

(** *** generateKey *)

(** X8.  generateKey when the algorithm returns a single key: a secret or
    private key without usages is refused with SyntaxError; any other key
    (a public key even without usages) is what the promise is fulfilled
    with, exactly as the algorithm built it. *)
Theorem generateKey_single_key a x keyUsages na f k :
  normalize "generateKey" a = inr na →
  methods na "generateKey" = Some f →
  f [ADescriptor a; AScalar x; AUsages keyUsages] = Normal (VKey k) →
  run (generateKey normalize methods a x keyUsages)
  = (Normal (if restricted_type (type k) && empty_usages (usages k)
             then Rejected SyntaxError
             else Fulfilled (VKey k)),
     [Normalize "generateKey" a;
      Call na "generateKey" [ADescriptor a; AScalar x; AUsages keyUsages]]).
Proof.
  intros Hn Hm Hf. unfold generateKey, supportedAlgorithms_normalize, run.
  unfold bind at 1. simpl. rewrite Hn. unfold new_Promise, try_catch, bind.
  rewrite (invoke_present _ _ _ f) by exact Hm. rewrite Hf. simpl.
  destruct (restricted_type (type k) && empty_usages (usages k)); reflexivity.
Qed.

(** X9.  generateKey when the algorithm returns a key pair: only the usages
    of the private key are tested.  A pair whose private key has no usages is
    refused with SyntaxError; otherwise the promise is fulfilled with the
    pair, whatever the usages of the public key. *)
Theorem generateKey_key_pair a x keyUsages na f publicKey privateKey :
  normalize "generateKey" a = inr na →
  methods na "generateKey" = Some f →
  f [ADescriptor a; AScalar x; AUsages keyUsages] = Normal (VKeyPair publicKey privateKey) →
  run (generateKey normalize methods a x keyUsages)
  = (Normal (if empty_usages (usages privateKey)
             then Rejected SyntaxError
             else Fulfilled (VKeyPair publicKey privateKey)),
     [Normalize "generateKey" a;
      Call na "generateKey" [ADescriptor a; AScalar x; AUsages keyUsages]]).
Proof.
  intros Hn Hm Hf. unfold generateKey, supportedAlgorithms_normalize, run.
  unfold bind at 1. simpl. rewrite Hn. unfold new_Promise, try_catch, bind.
  rewrite (invoke_present _ _ _ f) by exact Hm. rewrite Hf. simpl.
  destruct (empty_usages (usages privateKey)); reflexivity.
Qed.

(** *** importKey, the data and the key *)

Lemma raw_format_not_jwk (format : string) :
  raw_format format = true → String.eqb format "jwk" = false.
Proof.
  unfold raw_format. intros H.
  apply orb_true_iff in H. destruct H as [H|H]; [apply orb_true_iff in H; destruct H as [H|H]|];
    apply String.eqb_eq in H; subst format; reflexivity.
Qed.

(** X10.  importKey with a format of raw bytes (raw, pkcs8, spki) and data
    that is not a byte buffer (a JsonWebKey, undefined, ...): the promise is
    rejected with a TypeError and the algorithm is never called. *)
Theorem importKey_raw_format_needs_bytes format keyData a x keyUsages na :
  normalize "importKey" a = inr na →
  raw_format format = true →
  (∀ bs, keyData ≠ VBytes bs) →
  ∃ message,
    run (importKey normalize methods recognizedKeyUsages JsonWebKey_constructor
           format keyData a x keyUsages)
    = (Normal (Rejected (TypeError message)), [Normalize "importKey" a]).
Proof.
  intros Hn Hraw Hnb. unfold importKey, supportedAlgorithms_normalize, run.
  unfold bind at 1. simpl. rewrite Hn. unfold new_Promise, importKey_keyData.
  unfold bind at 1. unfold bind at 1. rewrite Hraw.
  destruct keyData; try (eexists; reflexivity).
  exfalso. eapply Hnb. reflexivity.
Qed.

(** The checks on the data let a byte buffer through for the raw formats, and
    anything at all for a format that is neither raw nor jwk. *)
Lemma importKey_keyData_passes format keyData st :
  String.eqb format "jwk" = false →
  (raw_format format = true → ∃ bs, keyData = VBytes bs) →
  importKey_keyData JsonWebKey_constructor format keyData st = (Normal keyData, st).
Proof.
  intros Hj Hraw. unfold importKey_keyData. rewrite Hj.
  destruct (raw_format format); [|reflexivity].
  destruct (Hraw eq_refl) as [bs ->]. reflexivity.
Qed.

(** X11.  importKey of raw bytes when the algorithm returns a key: a secret
    or private key that the algorithm built without usages is refused with
    SyntaxError.  Otherwise the promise is fulfilled with that key, its
    [extractable] replaced by the caller's argument and its [usages] by
    [recognizedKeyUsages.normalize(keyUsages)]; type, algorithm and handle
    stay as the algorithm set them. *)
Theorem importKey_raw_bytes_key format bs a x keyUsages na f k :
  normalize "importKey" a = inr na →
  raw_format format = true →
  methods na "importKey" = Some f →
  f [AString format; AValue (VBytes bs); ADescriptor a; AScalar x; AUsages keyUsages]
  = Normal (VKey k) →
  run (importKey normalize methods recognizedKeyUsages JsonWebKey_constructor
         format (VBytes bs) a x keyUsages)
  = (Normal (if restricted_type (type k) && empty_usages (usages k)
             then Rejected SyntaxError
             else Fulfilled
                    (VKey {| type := type k; extractable := x;
                             algorithm := algorithm k;
                             usages := Some (recognizedKeyUsages_normalize
                                               recognizedKeyUsages keyUsages);
                             handle := handle k |})),
     [Normalize "importKey" a;
      Call na "importKey"
           [AString format; AValue (VBytes bs); ADescriptor a; AScalar x;
            AUsages keyUsages]]).
Proof.
  intros Hn Hraw Hm Hf. unfold importKey, supportedAlgorithms_normalize, run.
  unfold bind at 1. simpl. rewrite Hn. unfold new_Promise, bind at 1.
  rewrite importKey_keyData_passes by (eauto using raw_format_not_jwk).
  unfold try_catch, bind. rewrite (invoke_present _ _ _ f) by exact Hm. rewrite Hf.
  simpl. destruct (restricted_type (type k)); simpl; [|reflexivity].
  destruct (empty_usages (usages k)); reflexivity.
Qed.

Lemma run_trace {A} (m : M A) : (run m).2 = trace (m initial).2.
Proof. unfold run. destruct (m initial) as [c st]. reflexivity. Qed.

Lemma normalized_then {A} op a (k : error + Algorithm → M A) (st : State) :
  bind (supportedAlgorithms_normalize normalize op a) k st
  = k (normalize op a)
      {| trace := trace st ++ [Normalize op a]; settled := settled st |}.
Proof. reflexivity. Qed.

Lemma new_Promise_trace (body : M unit) (st : State) :
  trace (new_Promise (Some body) st).2
  = trace (body {| trace := trace st; settled := None |}).2.
Proof. unfold new_Promise. destruct (body _) as [c st']. reflexivity. Qed.

Lemma try_catch_trace {A} (body : M A) (h : error → M A) (st : State) :
  (∀ e, quiet (h e)) → trace (try_catch body h st).2 = trace (body st).2.
Proof.
  intros Hh. unfold try_catch. destruct (body st) as [[a|e] st']; [reflexivity|].
  apply Hh.
Qed.

Lemma invoke_then_quiet {A} this_ m args f (k : value → M A) (st : State) :
  methods this_ m = Some f →
  (∀ v, quiet (k v)) →
  trace (bind (invoke methods this_ m args) k st).2 = trace st ++ [Call this_ m args].
Proof.
  intros Hm Hk. unfold bind. rewrite (invoke_present _ _ _ f) by exact Hm.
  destruct (f args) as [v|e]; [|reflexivity]. rewrite Hk. reflexivity.
Qed.

(** X12.  importKey with a format that is none of raw, pkcs8, spki and jwk:
    the format is not refused and the data is not looked at; the algorithm's
    importKey is called with the format and the data as the caller passed
    them. *)
Theorem importKey_unknown_format_passes_data format keyData a x keyUsages na f :
  normalize "importKey" a = inr na →
  ¬ In format ["raw"; "pkcs8"; "spki"; "jwk"] →
  methods na "importKey" = Some f →
  (run (importKey normalize methods recognizedKeyUsages JsonWebKey_constructor
          format keyData a x keyUsages)).2
  = [Normalize "importKey" a;
     Call na "importKey"
          [AString format; AValue keyData; ADescriptor a; AScalar x; AUsages keyUsages]].
Proof.
  intros Hn Hf Hm.
  assert (String.eqb format "jwk" = false) as Hj.
  { apply String.eqb_neq. intros ->. apply Hf. simpl. auto. }
  assert (raw_format format = false) as Hraw.
  { destruct (raw_format format) eqn:E; [|reflexivity]. exfalso. apply Hf.
    unfold raw_format in E. apply orb_true_iff in E.
    destruct E as [E|E]; [apply orb_true_iff in E; destruct E as [E|E]|];
      apply String.eqb_eq in E; subst format; simpl; auto. }
  rewrite run_trace. unfold importKey. rewrite normalized_then, Hn.
  rewrite new_Promise_trace. unfold bind at 1.
  rewrite importKey_keyData_passes by (first [exact Hj | rewrite Hraw; discriminate]).
  rewrite try_catch_trace by (intros; apply quiet_reject).
  rewrite (invoke_then_quiet _ _ _ f) by (first [exact Hm | intros; quiet_tac]).
  reflexivity.
Qed.

(** *** wrapKey, check by check *)

(** wrapKey once its normalization has produced [na]: the promise of the
    executor, started after the calls to [normalize]. *)
Lemma wrapKey_normalized format key wrappingKey a na :
  match normalize "wrapKey" a with
  | inl _ => normalize "encrypt" a
  | inr x => inr x
  end = inr na →
  ∃ prefix,
    provider_calls prefix = []
    ∧ wrapKey normalize exportKey_registry methods JSON_stringify TextEncoder_encode
              format key wrappingKey a initial
      = new_Promise (Some (wrapKey_executor exportKey_registry methods JSON_stringify
                             TextEncoder_encode na a format key wrappingKey))
                    {| trace := prefix; settled := None |}.
Proof.
  intros Hn. rewrite wrapKey_after_normalization. cbv zeta.
  destruct (normalize "wrapKey" a) as [e1|na1].
  - rewrite Hn. eexists. split; [|reflexivity]. reflexivity.
  - injection Hn as ->. eexists. split; [|reflexivity]. reflexivity.
Qed.

(** From the promise of the executor to the run of wrapKey. *)
Lemma wrapKey_run_of_promise format key wrappingKey a na (p : promise) (calls : list event) :
  match normalize "wrapKey" a with
  | inl _ => normalize "encrypt" a
  | inr x => inr x
  end = inr na →
  (∀ st, new_Promise (Some (wrapKey_executor exportKey_registry methods JSON_stringify
                              TextEncoder_encode na a format key wrappingKey)) st
         = (Normal p, {| trace := trace st ++ calls; settled := settled st |})) →
  provider_calls calls = calls →
  (run (wrapKey normalize exportKey_registry methods JSON_stringify TextEncoder_encode
          format key wrappingKey a)).1 = Normal p
  ∧ provider_calls
      (run (wrapKey normalize exportKey_registry methods JSON_stringify
              TextEncoder_encode format key wrappingKey a)).2 = calls.
Proof.
  intros Hn Hp Hcalls.
  destruct (wrapKey_normalized format key wrappingKey a na Hn) as [prefix [Hpre Hw]].
  unfold run. rewrite Hw, Hp. simpl. split; [reflexivity|].
  unfold provider_calls in *. rewrite List.filter_app, Hpre, Hcalls. reflexivity.
Qed.

(** X13.  wrapKey with a wrapping key of another algorithm than the
    normalized one: the promise is rejected with InvalidAccessError and no
    algorithm method is called; the key to wrap is not exported. *)
Theorem wrapKey_wrong_wrapping_key format key wrappingKey a na :
  match normalize "wrapKey" a with
  | inl _ => normalize "encrypt" a
  | inr x => inr x
  end = inr na →
  name na ≠ name (algorithm wrappingKey) →
  rejects_without_provider_call
    (run (wrapKey normalize exportKey_registry methods JSON_stringify TextEncoder_encode
            format key wrappingKey a))
    (InvalidAccessError
       "NormalizedAlgorthm name must be same as wrappingKey algorithm name").
Proof.
  intros Hn Hne. apply String.eqb_neq in Hne.
  apply (wrapKey_run_of_promise format key wrappingKey a na _ [] Hn); [|reflexivity].
  intros st. unfold new_Promise, wrapKey_executor, try_catch, bind, when.
  rewrite Hne. simpl. rewrite app_nil_r. reflexivity.
Qed.

(** X14.  wrapKey with a wrapping key of the right algorithm whose usages
    lack "wrapKey": the promise is rejected with InvalidAccessError and no
    algorithm method is called; the key to wrap is not exported. *)
Theorem wrapKey_missing_usage format key wrappingKey a na us :
  match normalize "wrapKey" a with
  | inl _ => normalize "encrypt" a
  | inr x => inr x
  end = inr na →
  name na = name (algorithm wrappingKey) →
  usages wrappingKey = Some us →
  ¬ In "wrapKey" us →
  rejects_without_provider_call
    (run (wrapKey normalize exportKey_registry methods JSON_stringify TextEncoder_encode
            format key wrappingKey a))
    (InvalidAccessError
       ("Wrapping key usages must include " ++ double_quote ++ "wrapKey"
          ++ double_quote)%string).
Proof.
  intros Hn Hname Hus Hnin. apply String.eqb_eq in Hname. apply includes_false in Hnin.
  apply (wrapKey_run_of_promise format key wrappingKey a na _ [] Hn); [|reflexivity].
  intros st. unfold new_Promise, wrapKey_executor, try_catch, bind, when, includes.
  rewrite Hname, Hus. unfold ret. simpl. rewrite Hnin. simpl. rewrite app_nil_r.
  reflexivity.
Qed.

(** X15.  wrapKey with a valid wrapping key and a key that must not leave:
    when the key's algorithm has not registered exportKey the promise is
    rejected with NotSupportedError carrying that algorithm's name; when it
    has and the key's [extractable] is [false], with InvalidAccessError.  In
    both cases no algorithm method is called: the key is neither exported nor
    wrapped. *)
Theorem wrapKey_key_not_exportable format key wrappingKey a na us :
  match normalize "wrapKey" a with
  | inl _ => normalize "encrypt" a
  | inr x => inr x
  end = inr na →
  name na = name (algorithm wrappingKey) →
  usages wrappingKey = Some us →
  In "wrapKey" us →
  not_registered exportKey_registry (name (algorithm key)) = true
  ∨ extractable key = SBool false →
  rejects_without_provider_call
    (run (wrapKey normalize exportKey_registry methods JSON_stringify TextEncoder_encode
            format key wrappingKey a))
    (if not_registered exportKey_registry (name (algorithm key))
     then NotSupportedError (name (algorithm key))
     else InvalidAccessError "Key is not extractable").
Proof.
  intros Hn Hname Hus Hin Hkey. apply String.eqb_eq in Hname. apply includes_true in Hin.
  apply (wrapKey_run_of_promise format key wrappingKey a na _ [] Hn); [|reflexivity].
  intros st. unfold new_Promise, wrapKey_executor, try_catch, bind, when, includes.
  rewrite Hname, Hus. unfold ret. simpl. rewrite Hin. simpl.
  destruct (not_registered exportKey_registry (name (algorithm key))) eqn:Hreg; simpl.
  - rewrite app_nil_r. reflexivity.
  - destruct Hkey as [Hkey|Hkey]; [discriminate|]. rewrite Hkey. simpl.
    rewrite app_nil_r. reflexivity.
Qed.

(** *** wrapKey, export then wrap *)

(** exportKey started in any state does what it does when run alone. *)
Lemma exportKey_at_state format key st :
  exportKey exportKey_registry methods format key st
  = ((run (exportKey exportKey_registry methods format key)).1,
     {| trace := trace st ++ (run (exportKey exportKey_registry methods format key)).2;
        settled := settled st |}).
Proof.
  unfold run, exportKey, new_Promise, try_catch, bind, when, invoke.
  destruct (not_registered _ _); simpl; [rewrite app_nil_r; reflexivity|].
  destruct (strictly_false _); simpl; [rewrite app_nil_r; reflexivity|].
  destruct (methods (algorithm key) "exportKey") as [f|]; simpl;
    [|rewrite app_nil_r; reflexivity].
  destruct (f _) as [v|e]; reflexivity.
Qed.

Lemma exportKey_returns format key :
  ∃ p, (run (exportKey exportKey_registry methods format key)).1 = Normal p.
Proof.
  unfold run, exportKey.
  destruct (new_Promise_returns
              (try_catch
                 (when (not_registered exportKey_registry (name (algorithm key)))
                    (throw (NotSupportedError (name (algorithm key))));;;
                  when (strictly_false (extractable key))
                    (throw (InvalidAccessError "Key is not extractable"));;;
                  let* result :=
                    invoke methods (algorithm key) "exportKey" [AString format; AKey key] in
                  resolve result)
                 (λ error, reject error)) initial) as [p [st' ->]].
  eauto.
Qed.

(** A fulfilled export passed both checks and found the export method. *)
Lemma exportKey_fulfilled_inv format key v :
  (run (exportKey exportKey_registry methods format key)).1 = Normal (Fulfilled v) →
  not_registered exportKey_registry (name (algorithm key)) = false
  ∧ extractable key ≠ SBool false
  ∧ ∃ f, methods (algorithm key) "exportKey" = Some f
         ∧ settle (f [AString format; AKey key]) = Fulfilled v.
Proof.
  unfold run, exportKey, new_Promise, try_catch, bind, when, invoke.
  destruct (not_registered _ _); simpl; [discriminate|].
  destruct (strictly_false (extractable key)) eqn:Hx; simpl; [discriminate|].
  destruct (methods (algorithm key) "exportKey") as [f|]; simpl; [|discriminate].
  intros H. split; [reflexivity|]. split.
  - intros Hf. apply strictly_false_spec in Hf. congruence.
  - exists f. split; [reflexivity|].
    destruct (f _) as [r|e]; simpl in *; congruence.
Qed.

(** wrapKey with a valid wrapping key, when exportKey of the key fulfils:
    the promise and the calls, for any format. *)
Lemma wrapKey_after_fulfilled_export format key wrappingKey a na us v :
  match normalize "wrapKey" a with
  | inl _ => normalize "encrypt" a
  | inr x => inr x
  end = inr na →
  name na = name (algorithm wrappingKey) →
  usages wrappingKey = Some us →
  In "wrapKey" us →
  (run (exportKey exportKey_registry methods format key)).1 = Normal (Fulfilled v) →
  let r := run (wrapKey normalize exportKey_registry methods JSON_stringify
                  TextEncoder_encode format key wrappingKey a) in
  let exported := Call (algorithm key) "exportKey" [AString format; AKey key] in
  let args := [ADescriptor a; AKey wrappingKey;
               ABytes (Uint8Array_from
                         (wrapKey_bytes JSON_stringify TextEncoder_encode format v))] in
  let outcome (g : method) :=
    match settle (g args) with
    | Fulfilled w => Fulfilled w
    | _ => Pending
    end in
  match methods na "wrapKey", methods na "encrypt" with
  | Some g, _ =>
      r.1 = Normal (outcome g) ∧ provider_calls r.2 = [exported; Call na "wrapKey" args]
  | None, Some g =>
      r.1 = Normal (outcome g) ∧ provider_calls r.2 = [exported; Call na "encrypt" args]
  | None, None =>
      r.1 = Normal (Rejected (NotSupportedError (name na)))
      ∧ provider_calls r.2 = [exported]
  end.
Proof.
  intros Hn Hname Hus Hin Hexp r exported args outcome. subst r.
  destruct (exportKey_fulfilled_inv format key v Hexp) as [Hreg [Hx [f [Hm Hf]]]].
  pose proof (wrapKey_promise_after_export na a format key wrappingKey us f v) as Hp.
  cbv zeta in Hp. fold exported args in Hp.
  destruct (methods na "wrapKey") as [g|].
  - apply (wrapKey_run_of_promise format key wrappingKey a na _ _ Hn); [|reflexivity].
    intros st. rewrite Hp by assumption. reflexivity.
  - destruct (methods na "encrypt") as [g|].
    + apply (wrapKey_run_of_promise format key wrappingKey a na _ _ Hn); [|reflexivity].
      intros st. rewrite Hp by assumption. reflexivity.
    + apply (wrapKey_run_of_promise format key wrappingKey a na _ _ Hn); [|reflexivity].
      intros st. rewrite Hp by assumption. reflexivity.
Qed.

(** X16.  wrapKey with format raw, pkcs8 or spki composes exportKey with the
    wrap method.  When exportKey of the key fulfils with bytes, those very
    bytes are what the normalized algorithm's wrapKey method receives, or its
    encrypt method when it has no wrapKey, after the caller's descriptor and
    the wrapping key; and when that call fulfils, so does wrapKey's promise,
    with the same value. *)
Theorem wrapKey_raw_wraps_exported_bytes format key wrappingKey a na us bs :
  In format ["raw"; "pkcs8"; "spki"] →
  match normalize "wrapKey" a with
  | inl _ => normalize "encrypt" a
  | inr x => inr x
  end = inr na →
  name na = name (algorithm wrappingKey) →
  usages wrappingKey = Some us →
  In "wrapKey" us →
  (run (exportKey exportKey_registry methods format key)).1
  = Normal (Fulfilled (VBytes bs)) →
  let r := run (wrapKey normalize exportKey_registry methods JSON_stringify
                  TextEncoder_encode format key wrappingKey a) in
  let exported := Call (algorithm key) "exportKey" [AString format; AKey key] in
  let args := [ADescriptor a; AKey wrappingKey; ABytes bs] in
  match methods na "wrapKey", methods na "encrypt" with
  | Some g, _ =>
      provider_calls r.2 = [exported; Call na "wrapKey" args]
      ∧ ∀ w, settle (g args) = Fulfilled w → r.1 = Normal (Fulfilled w)
  | None, Some g =>
      provider_calls r.2 = [exported; Call na "encrypt" args]
      ∧ ∀ w, settle (g args) = Fulfilled w → r.1 = Normal (Fulfilled w)
  | None, None => True
  end.
Proof.
  intros Hfmt Hn Hname Hus Hin Hexp r exported args. subst r.
  pose proof (wrapKey_after_fulfilled_export format key wrappingKey a na us (VBytes bs)
                Hn Hname Hus Hin Hexp) as H.
  cbv zeta in H. unfold wrapKey_bytes in H.
  rewrite (includes_true _ _ Hfmt) in H. simpl Uint8Array_from in H.
  fold exported args in H.
  destruct (methods na "wrapKey") as [g|].
  - destruct H as [H1 H2]. split; [exact H2|]. intros w Hw. rewrite H1, Hw. reflexivity.
  - destruct (methods na "encrypt") as [g|]; [|exact I].
    destruct H as [H1 H2]. split; [exact H2|]. intros w Hw. rewrite H1, Hw. reflexivity.
Qed.

(** X17.  wrapKey with format jwk: what the wrap method receives is
    [new TextEncoder().encode(JSON.stringify(exportedKey))] for the value
    exportKey fulfilled with. *)
Theorem wrapKey_jwk_wraps_encoded_json key wrappingKey a na us v :
  match normalize "wrapKey" a with
  | inl _ => normalize "encrypt" a
  | inr x => inr x
  end = inr na →
  name na = name (algorithm wrappingKey) →
  usages wrappingKey = Some us →
  In "wrapKey" us →
  (run (exportKey exportKey_registry methods "jwk" key)).1 = Normal (Fulfilled v) →
  let r := run (wrapKey normalize exportKey_registry methods JSON_stringify
                  TextEncoder_encode "jwk" key wrappingKey a) in
  let exported := Call (algorithm key) "exportKey" [AString "jwk"; AKey key] in
  let args := [ADescriptor a; AKey wrappingKey;
               ABytes (TextEncoder_encode (JSON_stringify v))] in
  match methods na "wrapKey", methods na "encrypt" with
  | Some _, _ => provider_calls r.2 = [exported; Call na "wrapKey" args]
  | None, Some _ => provider_calls r.2 = [exported; Call na "encrypt" args]
  | None, None => True
  end.
Proof.
  intros Hn Hname Hus Hin Hexp r exported args. subst r.
  pose proof (wrapKey_after_fulfilled_export "jwk" key wrappingKey a na us v
                Hn Hname Hus Hin Hexp) as H.
  cbv zeta in H. fold exported in H.
  change (Uint8Array_from (wrapKey_bytes JSON_stringify TextEncoder_encode "jwk" v))
    with (TextEncoder_encode (JSON_stringify v)) in H.
  fold args in H.
  destruct (methods na "wrapKey") as [g|]; [exact (proj2 H)|].
  destruct (methods na "encrypt") as [g|]; [exact (proj2 H) | exact I].
Qed.

(** X18.  wrapKey when the normalized algorithm has neither a wrapKey nor an
    encrypt method: the promise is rejected with NotSupportedError carrying
    the algorithm's name, but only after the key has been exported. *)
Theorem wrapKey_without_wrap_method format key wrappingKey a na us v :
  match normalize "wrapKey" a with
  | inl _ => normalize "encrypt" a
  | inr x => inr x
  end = inr na →
  name na = name (algorithm wrappingKey) →
  usages wrappingKey = Some us →
  In "wrapKey" us →
  (run (exportKey exportKey_registry methods format key)).1 = Normal (Fulfilled v) →
  methods na "wrapKey" = None →
  methods na "encrypt" = None →
  (run (wrapKey normalize exportKey_registry methods JSON_stringify TextEncoder_encode
          format key wrappingKey a)).1
  = Normal (Rejected (NotSupportedError (name na)))
  ∧ provider_calls
      (run (wrapKey normalize exportKey_registry methods JSON_stringify
              TextEncoder_encode format key wrappingKey a)).2
    = [Call (algorithm key) "exportKey" [AString format; AKey key]].
Proof.
  intros Hn Hname Hus Hin Hexp Hw He.
  pose proof (wrapKey_after_fulfilled_export format key wrappingKey a na us v
                Hn Hname Hus Hin Hexp) as H.
  cbv zeta in H. rewrite Hw, He in H. exact H.
Qed.

(** X19.  wrapKey with a valid wrapping key and a key that passes the checks,
    when exportKey of the key does not fulfil (the export method is missing,
    throws, or returns a promise that rejects or never settles): the promise
    of wrapKey never settles, and the wrap method is never called. *)
Theorem wrapKey_export_not_fulfilled format key wrappingKey a na us p :
  match normalize "wrapKey" a with
  | inl _ => normalize "encrypt" a
  | inr x => inr x
  end = inr na →
  name na = name (algorithm wrappingKey) →
  usages wrappingKey = Some us →
  In "wrapKey" us →
  not_registered exportKey_registry (name (algorithm key)) = false →
  extractable key ≠ SBool false →
  (run (exportKey exportKey_registry methods format key)).1 = Normal p →
  (∀ v, p ≠ Fulfilled v) →
  (run (wrapKey normalize exportKey_registry methods JSON_stringify TextEncoder_encode
          format key wrappingKey a)).1 = Normal Pending
  ∧ provider_calls
      (run (wrapKey normalize exportKey_registry methods JSON_stringify
              TextEncoder_encode format key wrappingKey a)).2
    = (run (exportKey exportKey_registry methods format key)).2.
Proof.
  intros Hn Hname Hus Hin Hreg Hx Hexp Hnf.
  apply String.eqb_eq in Hname. apply includes_true in Hin.
  apply not_strictly_false in Hx.
  apply (wrapKey_run_of_promise format key wrappingKey a na _ _ Hn).
  - intros st. unfold new_Promise, wrapKey_executor, try_catch, bind, when, includes.
    rewrite Hname, Hus. unfold ret. simpl. rewrite Hin, Hreg, Hx. simpl.
    rewrite exportKey_at_state, Hexp. simpl.
    destruct p as [|v|e]; [reflexivity | exfalso; eapply Hnf; reflexivity | reflexivity].
  - rewrite run_trace.
    destruct (calls_once_exportKey format key initial) as [->|[args ->]]; reflexivity.
Qed.

(** *** Errors of generateKey and importKey *)

(** A completion that settles as a rejection is a throw or a promise. *)
Lemma settle_rejected_inv (c : completion value) (e : error) :
  settle c = Rejected e →
  c = Throw e ∨ ∃ p, c = Normal (VPromise p) ∧ resolution (VPromise p) = Rejected e.
Proof.
  destruct c as [v|e']; simpl.
  - destruct v; simpl; try discriminate. intros H. right. eexists. split; [reflexivity|].
    exact H.
  - intros [= ->]. left. reflexivity.
Qed.

(** X20.  generateKey: an error of the algorithm's generateKey, thrown or
    delivered by a promise it returns, rejects generateKey's promise
    unchanged. *)
Theorem generateKey_forwards_provider_error a x keyUsages na f e :
  normalize "generateKey" a = inr na →
  methods na "generateKey" = Some f →
  settle (f [ADescriptor a; AScalar x; AUsages keyUsages]) = Rejected e →
  run (generateKey normalize methods a x keyUsages)
  = (Normal (Rejected e),
     [Normalize "generateKey" a;
      Call na "generateKey" [ADescriptor a; AScalar x; AUsages keyUsages]]).
Proof.
  intros Hn Hm Hf. unfold generateKey, supportedAlgorithms_normalize, run.
  unfold bind at 1. simpl. rewrite Hn. unfold new_Promise, try_catch, bind.
  rewrite (invoke_present _ _ _ f) by exact Hm.
  destruct (settle_rejected_inv _ _ Hf) as [->|[p [-> Hp]]]; [reflexivity|].
  simpl in *. rewrite Hp. reflexivity.
Qed.

(** X21.  importKey of raw bytes: an error of the algorithm's importKey,
    thrown or delivered by a promise it returns, rejects importKey's promise
    unchanged. *)
Theorem importKey_forwards_provider_error format bs a x keyUsages na f e :
  normalize "importKey" a = inr na →
  raw_format format = true →
  methods na "importKey" = Some f →
  settle (f [AString format; AValue (VBytes bs); ADescriptor a; AScalar x;
             AUsages keyUsages]) = Rejected e →
  run (importKey normalize methods recognizedKeyUsages JsonWebKey_constructor
         format (VBytes bs) a x keyUsages)
  = (Normal (Rejected e),
     [Normalize "importKey" a;
      Call na "importKey"
           [AString format; AValue (VBytes bs); ADescriptor a; AScalar x;
            AUsages keyUsages]]).
Proof.
  intros Hn Hraw Hm Hf. unfold importKey, supportedAlgorithms_normalize, run.
  unfold bind at 1. simpl. rewrite Hn. unfold new_Promise, bind at 1.
  rewrite importKey_keyData_passes by (eauto using raw_format_not_jwk).
  unfold try_catch, bind. rewrite (invoke_present _ _ _ f) by exact Hm.
  destruct (settle_rejected_inv _ _ Hf) as [->|[p [-> Hp]]]; [reflexivity|].
  simpl in *. rewrite Hp. reflexivity.
Qed.

End Properties.

(** ** The properties on the concrete installation *)

Module Examples.
Import Scenario.

(** Encrypting with a key of another algorithm. *)
Lemma mismatched_key_rejected_before_provider_witness :
  Scenario.normalize (op_name Encrypt) aes_gcm_iv = inr AES_GCM
  ∧ name AES_GCM ≠ name (algorithm rsa_key)
  ∧ run (subtle_perform Encrypt aes_gcm_iv rsa_key [] message)
    = (Normal (Rejected (InvalidAccessError "Algorithm does not match key")),
       [Normalize "encrypt" aes_gcm_iv])
  ∧ rejects_without_provider_call
      (run (subtle_perform Encrypt aes_gcm_iv rsa_key [] message))
      (InvalidAccessError "Algorithm does not match key").
Proof.
  split; [reflexivity|]. split; [discriminate|].
  apply (mismatched_key_rejected_before_provider Scenario.normalize Scenario.methods
           Encrypt aes_gcm_iv rsa_key [] message AES_GCM);
    [reflexivity | discriminate].
Defined.

(** Encrypting with a matching key. *)
Lemma provider_called_on_normalized_algorithm_witness :
  run (subtle_perform Encrypt aes_gcm_iv gcm_key [] message)
  = (Normal (Fulfilled (VBytes (iv ++ message))),
     [Normalize "encrypt" aes_gcm_iv;
      Call AES_GCM "encrypt" [ADescriptor aes_gcm_iv; AKey gcm_key; ABytes message]]).
Proof.
  refine (provider_called_on_normalized_algorithm Scenario.normalize Scenario.methods
            Encrypt aes_gcm_iv gcm_key [] message AES_GCM
            ["encrypt"; "decrypt"; "wrapKey"]
            (λ args, match args with
                     | [_; _; ABytes bs] => Normal (VBytes (iv ++ bs))
                     | _ => Throw (TypeError "encrypt: bad arguments")
                     end) _ _ _ _ _);
    [reflexivity | reflexivity | reflexivity | simpl; auto | reflexivity].
Defined.

(** C1 (as stated) fails: the call that reaches AES-GCM's [encrypt] carries
    the caller's own descriptor, with its [iv], as first argument. *)
Lemma encrypt_hands_over_callers_descriptor :
  provider_calls (run (subtle_encrypt aes_gcm_iv gcm_key message)).2
  = [Call AES_GCM "encrypt" [ADescriptor aes_gcm_iv; AKey gcm_key; ABytes message]]
  ∧ ¬ Forall (λ ev, ¬ passes_descriptor aes_gcm_iv ev)
        (provider_calls (run (subtle_encrypt aes_gcm_iv gcm_key message)).2).
Proof.
  assert (provider_calls (run (subtle_encrypt aes_gcm_iv gcm_key message)).2
          = [Call AES_GCM "encrypt" [ADescriptor aes_gcm_iv; AKey gcm_key; ABytes message]])
    as Hcalls by reflexivity.
  split; [exact Hcalls|]. rewrite Hcalls. intros H. apply Forall_inv in H.
  apply H. simpl. apply list_elem_of_here.
Qed.

(** Exporting an AES-GCM key that is not extractable. *)
Lemma exportKey_not_extractable_witness :
  extractable locked_gcm_key = SBool false
  ∧ rejects_without_provider_call
      (run (subtle_exportKey "raw" locked_gcm_key))
      (InvalidAccessError "Key is not extractable").
Proof.
  split; [reflexivity|].
  exact (exportKey_not_extractable Scenario.exportKey_registry Scenario.methods
           "raw" locked_gcm_key eq_refl).
Defined.

(** C2 (as stated) fails: the RSA key is not extractable, and its algorithm
    has not registered exportKey; the rejection is a NotSupportedError. *)
Lemma exportKey_locked_unregistered_key :
  extractable rsa_key = SBool false
  ∧ run (subtle_exportKey "raw" rsa_key)
    = (Normal (Rejected (NotSupportedError "RSASSA-PKCS1-v1_5")), [])
  ∧ ¬ (∃ message, (run (subtle_exportKey "raw" rsa_key)).1
                  = Normal (Rejected (InvalidAccessError message))).
Proof.
  split; [reflexivity|]. split; [reflexivity|].
  intros [m H]. discriminate H.
Qed.

(** Exporting a key whose [extractable] is undefined. *)
Lemma exportKey_strict_false_only_witness :
  not_registered Scenario.exportKey_registry (name (algorithm gcm_key_no_flag)) = false
  ∧ extractable gcm_key_no_flag ≠ SBool false
  ∧ run (subtle_exportKey "raw" gcm_key_no_flag)
    = (Normal (Fulfilled (VBytes secret)),
       [Call AES_GCM "exportKey" [AString "raw"; AKey gcm_key_no_flag]]).
Proof.
  split; [reflexivity|]. split; [discriminate|].
  refine (exportKey_strict_false_only Scenario.exportKey_registry Scenario.methods
            "raw" gcm_key_no_flag _ _); [reflexivity | discriminate].
Defined.

(** Wrapping with the format "der". *)
Lemma wrapKey_unknown_format_wraps_nothing_witness :
  provider_calls (run (subtle_wrapKey "der" gcm_key gcm_key aes_gcm_iv)).2
  = [Call AES_GCM "exportKey" [AString "der"; AKey gcm_key];
     Call AES_GCM "encrypt" [ADescriptor aes_gcm_iv; AKey gcm_key; ABytes []]].
Proof.
  refine (proj2 (proj2 (wrapKey_unknown_format_wraps_nothing Scenario.normalize
            Scenario.exportKey_registry Scenario.methods
            Scenario.JSON_stringify Scenario.TextEncoder_encode
            "der" gcm_key gcm_key aes_gcm_iv AES_GCM
            ["encrypt"; "decrypt"; "wrapKey"]
            (λ args, match args with
                     | [_; AKey k] => Normal (VBytes (handle k))
                     | _ => Throw (TypeError "exportKey: bad arguments")
                     end)
            (VBytes secret) _ _ _ _ _ _ _ _ _))).
  - simpl. intros [H|[H|[H|[H|[]]]]]; discriminate H.
  - reflexivity.
  - reflexivity.
  - reflexivity.
  - simpl. auto.
  - reflexivity.
  - discriminate.
  - reflexivity.
  - reflexivity.
Defined.

(** C4 on importKey.  An RSA private key imported with no usages: the
    algorithm builds a key that can sign, the test of its usages passes, the
    usages are then replaced with the caller's, and the promise is fulfilled
    with a private key whose usages are empty.  The same for an AES key
    imported with a usage that is not a recognized one. *)
Theorem importKey_resolves_restricted_key_without_usages :
  run (subtle_importKey "jwk" (VJwk rsa_jwk) rsassa (SBool true) [])
  = (Normal (Fulfilled (VKey {| type := "private"; extractable := SBool true;
                                algorithm := RSASSA; usages := Some [];
                                handle := [] |})),
     [Normalize "importKey" rsassa;
      Call RSASSA "importKey"
           [AString "jwk"; AValue (VJwk rsa_jwk); ADescriptor rsassa;
            AScalar (SBool true); AUsages []]])
  ∧ (run (subtle_importKey "raw" (VBytes secret) aes_gcm_iv (SBool true) ["bogus"])).1
    = Normal (Fulfilled (VKey {| type := "secret"; extractable := SBool true;
                                 algorithm := AES_GCM; usages := Some [];
                                 handle := secret |})).
Proof. split; reflexivity. Qed.

(** C5 on wrapKey.  AES-KW's [encrypt] throws an OperationError.  wrapKey
    with an AES-KW wrapping key gets as far as that call, and the promise it
    returned stays pending: the error reaches nobody. *)
Theorem wrapKey_provider_error_left_pending :
  option_map (λ f : method, f [ADescriptor aes_kw; AKey kw_key; ABytes secret])
             (Scenario.methods AES_KW "encrypt")
  = Some (Throw (OperationError "AES-KW: data must be a multiple of 8 bytes"))
  ∧ run (subtle_wrapKey "raw" gcm_key kw_key aes_kw)
    = (Normal Pending,
       [Normalize "wrapKey" aes_kw; Normalize "encrypt" aes_kw;
        Call AES_GCM "exportKey" [AString "raw"; AKey gcm_key];
        Call AES_KW "encrypt" [ADescriptor aes_kw; AKey kw_key; ABytes secret]]).
Proof. split; reflexivity. Qed.

(** Both normalizations of wrapKey fail for an unknown algorithm. *)
Example wrapKey_unknown_algorithm :
  run (subtle_wrapKey "raw" gcm_key gcm_key rot13)
  = (Normal (Rejected (NotSupportedError "encrypt: ROT13")),
     [Normalize "wrapKey" rot13; Normalize "encrypt" rot13]).
Proof. reflexivity. Qed.

(** Wrapping with a key that lacks the wrapKey usage stops before the export. *)
Example wrapKey_without_usage :
  run (subtle_wrapKey "jwk" gcm_key gcm_key_no_flag aes_gcm_iv)
  = (Normal (Rejected (InvalidAccessError
       ("Wrapping key usages must include " ++ quoted "wrapKey")%string)),
     [Normalize "wrapKey" aes_gcm_iv; Normalize "encrypt" aes_gcm_iv]).
Proof. reflexivity. Qed.

(** Importing raw bytes with a repeated usage keeps it once. *)
Example importKey_deduplicates_usages :
  (run (subtle_importKey "raw" (VBytes secret) aes_gcm_iv (SBool true)
          ["encrypt"; "encrypt"])).1
  = Normal (Fulfilled (VKey {| type := "secret"; extractable := SBool true;
                               algorithm := AES_GCM; usages := Some ["encrypt"];
                               handle := secret |})).
Proof. reflexivity. Qed.

(** A key record where raw bytes are expected is refused before the
    algorithm is asked. *)
Example importKey_raw_refuses_key_record :
  run (subtle_importKey "raw" (VJwk rsa_jwk) aes_gcm_iv (SBool true) ["encrypt"])
  = (Normal (Rejected (TypeError EmptyString)), [Normalize "importKey" aes_gcm_iv]).
Proof. reflexivity. Qed.

(** *** More of the class on the two installations *)

(** Encrypting with an algorithm nobody registered. *)
Lemma normalization_failure_rejects_witness :
  run (subtle_dispatch (EncryptRequest rot13 gcm_key message))
  = (Normal (Rejected (NotSupportedError "encrypt: ROT13")),
     [Normalize "encrypt" rot13]).
Proof.
  exact (normalization_failure_rejects Scenario.normalize Scenario.methods
           Scenario.recognizedKeyUsages Scenario.JsonWebKey_constructor
           (EncryptRequest rot13 gcm_key message)
           (NotSupportedError "encrypt: ROT13") eq_refl).
Defined.

(** Decrypting with a key that may only encrypt. *)
Lemma missing_usage_rejected_before_provider_witness :
  run (subtle_perform Decrypt aes_gcm_iv gcm_key_no_flag [] message)
  = (Normal (Rejected (InvalidAccessError (usages_must_include "decrypt"))),
     [Normalize "decrypt" aes_gcm_iv]).
Proof.
  refine (missing_usage_rejected_before_provider Scenario.normalize Scenario.methods
            Decrypt aes_gcm_iv gcm_key_no_flag [] message AES_GCM ["encrypt"] _ _ _ _);
    [reflexivity | reflexivity | reflexivity |].
  simpl. intros [H|[]]. discriminate H.
Defined.

(** Encrypting with a key that has no usages at all. *)
Lemma key_without_usages_rejected_witness :
  ∃ message',
    run (subtle_perform Encrypt aes_gcm_iv gcm_key_no_usages [] message)
    = (Normal (Rejected (TypeError message')), [Normalize "encrypt" aes_gcm_iv]).
Proof.
  refine (key_without_usages_rejected Scenario.normalize Scenario.methods
            Encrypt aes_gcm_iv gcm_key_no_usages [] message AES_GCM _ _ _);
    reflexivity.
Defined.

(** Exporting the RSA key, whose algorithm registered no export. *)
Lemma exportKey_unregistered_algorithm_witness :
  run (subtle_exportKey "raw" rsa_key)
  = (Normal (Rejected (NotSupportedError "RSASSA-PKCS1-v1_5")), []).
Proof.
  exact (exportKey_unregistered_algorithm Scenario.exportKey_registry Scenario.methods
           "raw" rsa_key eq_refl).
Defined.

(** Digesting two bytes. *)
Lemma digest_settles_as_provider_witness :
  run (subtle2_digest sha_256 message)
  = (Normal (Fulfilled (VBytes (rev message))),
     [Normalize "digest" sha_256;
      Call SHA_256 "digest" [ADescriptor sha_256; ABytes message]]).
Proof.
  refine (digest_settles_as_provider normalize2 methods2 sha_256 message SHA_256
            (λ args, match args with
                     | [_; ABytes bs] => Normal (VBytes (rev bs))
                     | _ => Throw (TypeError "digest: bad arguments")
                     end) _ _); reflexivity.
Defined.

(** Generating an HMAC key without usages. *)
Lemma generateKey_single_key_witness :
  run (subtle2_generateKey hmac (SBool true) [])
  = (Normal (Rejected SyntaxError),
     [Normalize "generateKey" hmac;
      Call HMAC "generateKey" [ADescriptor hmac; AScalar (SBool true); AUsages []]]).
Proof.
  refine (generateKey_single_key normalize2 methods2 hmac (SBool true) [] HMAC
            (λ args, match args with
                     | [_; AScalar e; AUsages us] =>
                         Normal (VKey {| type := "secret"; extractable := e;
                                         algorithm := HMAC; usages := Some us;
                                         handle := secret |})
                     | _ => Throw (TypeError "generateKey: bad arguments")
                     end)
            {| type := "secret"; extractable := SBool true; algorithm := HMAC;
               usages := Some []; handle := secret |} _ _ _); reflexivity.
Defined.

(** Generating an ECDSA pair that may only verify: the private key would
    have no usages. *)
Lemma generateKey_key_pair_witness :
  run (subtle2_generateKey ecdsa (SBool false) ["verify"])
  = (Normal (Rejected SyntaxError),
     [Normalize "generateKey" ecdsa;
      Call ECDSA "generateKey"
           [ADescriptor ecdsa; AScalar (SBool false); AUsages ["verify"]]]).
Proof.
  refine (generateKey_key_pair normalize2 methods2 ecdsa (SBool false) ["verify"] ECDSA
            (λ args, match args with
                     | [_; AScalar e; AUsages us] =>
                         Normal (VKeyPair
                                   {| type := "public"; extractable := SBool true;
                                      algorithm := ECDSA;
                                      usages := Some (List.filter (String.eqb "verify") us);
                                      handle := message |}
                                   {| type := "private"; extractable := e;
                                      algorithm := ECDSA;
                                      usages := Some (List.filter (String.eqb "sign") us);
                                      handle := secret |})
                     | _ => Throw (TypeError "generateKey: bad arguments")
                     end)
            {| type := "public"; extractable := SBool true; algorithm := ECDSA;
               usages := Some ["verify"]; handle := message |}
            {| type := "private"; extractable := SBool false; algorithm := ECDSA;
               usages := Some []; handle := secret |} _ _ _); reflexivity.
Defined.

(** Importing a key record under the raw format. *)
Lemma importKey_raw_format_needs_bytes_witness :
  ∃ message',
    run (subtle_importKey "raw" (VJwk rsa_jwk) aes_gcm_iv (SBool true) ["encrypt"])
    = (Normal (Rejected (TypeError message')), [Normalize "importKey" aes_gcm_iv]).
Proof.
  refine (importKey_raw_format_needs_bytes Scenario.normalize Scenario.methods
            Scenario.recognizedKeyUsages Scenario.JsonWebKey_constructor
            "raw" (VJwk rsa_jwk) aes_gcm_iv (SBool true) ["encrypt"] AES_GCM _ _ _);
    [reflexivity | reflexivity | intros bs H; discriminate H].
Defined.

(** Importing raw bytes as a key that is not extractable, with one usage
    that is recognized and one that is not. *)
Lemma importKey_raw_bytes_key_witness :
  run (subtle_importKey "raw" (VBytes secret) aes_gcm_iv (SBool false)
         ["encrypt"; "bogus"])
  = (Normal (Fulfilled (VKey {| type := "secret"; extractable := SBool false;
                                algorithm := AES_GCM; usages := Some ["encrypt"];
                                handle := secret |})),
     [Normalize "importKey" aes_gcm_iv;
      Call AES_GCM "importKey"
           [AString "raw"; AValue (VBytes secret); ADescriptor aes_gcm_iv;
            AScalar (SBool false); AUsages ["encrypt"; "bogus"]]]).
Proof.
  refine (importKey_raw_bytes_key Scenario.normalize Scenario.methods
            Scenario.recognizedKeyUsages Scenario.JsonWebKey_constructor
            "raw" secret aes_gcm_iv (SBool false) ["encrypt"; "bogus"] AES_GCM
            (λ args, match args with
                     | [_; AValue (VBytes bs); _; AScalar e; AUsages us] =>
                         Normal (VKey {| type := "secret"; extractable := e;
                                         algorithm := AES_GCM; usages := Some us;
                                         handle := bs |})
                     | _ => Throw (DataError "importKey: bad key data")
                     end)
            {| type := "secret"; extractable := SBool false; algorithm := AES_GCM;
               usages := Some ["encrypt"; "bogus"]; handle := secret |} _ _ _ _);
    reflexivity.
Defined.

(** Importing under the format "der". *)
Lemma importKey_unknown_format_passes_data_witness :
  (run (subtle_importKey "der" (VBool true) aes_gcm_iv (SBool true) ["encrypt"])).2
  = [Normalize "importKey" aes_gcm_iv;
     Call AES_GCM "importKey"
          [AString "der"; AValue (VBool true); ADescriptor aes_gcm_iv;
           AScalar (SBool true); AUsages ["encrypt"]]].
Proof.
  refine (importKey_unknown_format_passes_data Scenario.normalize Scenario.methods
            Scenario.recognizedKeyUsages Scenario.JsonWebKey_constructor
            "der" (VBool true) aes_gcm_iv (SBool true) ["encrypt"] AES_GCM
            (λ args, match args with
                     | [_; AValue (VBytes bs); _; AScalar e; AUsages us] =>
                         Normal (VKey {| type := "secret"; extractable := e;
                                         algorithm := AES_GCM; usages := Some us;
                                         handle := bs |})
                     | _ => Throw (DataError "importKey: bad key data")
                     end) _ _ _);
    [reflexivity | | reflexivity].
  simpl. intros [H|[H|[H|[H|[]]]]]; discriminate H.
Defined.

(** Wrapping with the RSA key under AES-GCM. *)
Lemma wrapKey_wrong_wrapping_key_witness :
  rejects_without_provider_call
    (run (subtle_wrapKey "raw" gcm_key rsa_key aes_gcm_iv))
    (InvalidAccessError
       "NormalizedAlgorthm name must be same as wrappingKey algorithm name").
Proof.
  refine (wrapKey_wrong_wrapping_key Scenario.normalize Scenario.exportKey_registry
            Scenario.methods Scenario.JSON_stringify Scenario.TextEncoder_encode
            "raw" gcm_key rsa_key aes_gcm_iv AES_GCM _ _);
    [reflexivity | discriminate].
Defined.

(** Wrapping with a key that may only encrypt. *)
Lemma wrapKey_missing_usage_witness :
  rejects_without_provider_call
    (run (subtle_wrapKey "jwk" gcm_key gcm_key_no_flag aes_gcm_iv))
    (InvalidAccessError
       ("Wrapping key usages must include " ++ double_quote ++ "wrapKey"
          ++ double_quote)%string).
Proof.
  refine (wrapKey_missing_usage Scenario.normalize Scenario.exportKey_registry
            Scenario.methods Scenario.JSON_stringify Scenario.TextEncoder_encode
            "jwk" gcm_key gcm_key_no_flag aes_gcm_iv AES_GCM ["encrypt"] _ _ _ _);
    [reflexivity | reflexivity | reflexivity |].
  simpl. intros [H|[]]. discriminate H.
Defined.

(** Wrapping a key that is not extractable. *)
Lemma wrapKey_key_not_exportable_witness :
  rejects_without_provider_call
    (run (subtle_wrapKey "raw" locked_gcm_key gcm_key aes_gcm_iv))
    (InvalidAccessError "Key is not extractable").
Proof.
  refine (wrapKey_key_not_exportable Scenario.normalize Scenario.exportKey_registry
            Scenario.methods Scenario.JSON_stringify Scenario.TextEncoder_encode
            "raw" locked_gcm_key gcm_key aes_gcm_iv AES_GCM
            ["encrypt"; "decrypt"; "wrapKey"] _ _ _ _ _);
    [reflexivity | reflexivity | reflexivity | simpl; auto | right; reflexivity].
Defined.

(** Wrapping an AES-GCM key under itself, raw. *)
Lemma wrapKey_raw_wraps_exported_bytes_witness :
  provider_calls (run (subtle_wrapKey "raw" gcm_key gcm_key aes_gcm_iv)).2
  = [Call AES_GCM "exportKey" [AString "raw"; AKey gcm_key];
     Call AES_GCM "encrypt" [ADescriptor aes_gcm_iv; AKey gcm_key; ABytes secret]]
  ∧ (run (subtle_wrapKey "raw" gcm_key gcm_key aes_gcm_iv)).1
    = Normal (Fulfilled (VBytes (iv ++ secret))).
Proof.
  pose proof (wrapKey_raw_wraps_exported_bytes Scenario.normalize
                Scenario.exportKey_registry Scenario.methods
                Scenario.JSON_stringify Scenario.TextEncoder_encode
                "raw" gcm_key gcm_key aes_gcm_iv AES_GCM
                ["encrypt"; "decrypt"; "wrapKey"] secret) as H.
  destruct H as [H1 H2];
    [simpl; auto | reflexivity | reflexivity | reflexivity | simpl; auto | reflexivity |].
  split; [exact H1 | apply H2; reflexivity].
Defined.

(** Wrapping an AES-GCM key under itself, as a key record. *)
Lemma wrapKey_jwk_wraps_encoded_json_witness :
  provider_calls (run (subtle2_wrapKey "jwk" gcm_key gcm_key aes_gcm_iv)).2
  = [Call AES_GCM "exportKey" [AString "jwk"; AKey gcm_key];
     Call AES_GCM "encrypt"
          [ADescriptor aes_gcm_iv; AKey gcm_key;
           ABytes (Scenario.TextEncoder_encode
                     (Scenario.JSON_stringify (VJwk (oct_jwk gcm_key))))]].
Proof.
  refine (wrapKey_jwk_wraps_encoded_json normalize2 Scenario.exportKey_registry
            methods2 Scenario.JSON_stringify Scenario.TextEncoder_encode
            gcm_key gcm_key aes_gcm_iv AES_GCM ["encrypt"; "decrypt"; "wrapKey"]
            (VJwk (oct_jwk gcm_key)) _ _ _ _ _);
    [reflexivity | reflexivity | reflexivity | simpl; auto | reflexivity].
Defined.

(** Wrapping under AES-CTR, which has no method to wrap with. *)
Lemma wrapKey_without_wrap_method_witness :
  (run (subtle2_wrapKey "raw" gcm_key ctr_key aes_ctr)).1
  = Normal (Rejected (NotSupportedError "AES-CTR"))
  ∧ provider_calls (run (subtle2_wrapKey "raw" gcm_key ctr_key aes_ctr)).2
    = [Call AES_GCM "exportKey" [AString "raw"; AKey gcm_key]].
Proof.
  refine (wrapKey_without_wrap_method normalize2 Scenario.exportKey_registry
            methods2 Scenario.JSON_stringify Scenario.TextEncoder_encode
            "raw" gcm_key ctr_key aes_ctr AES_CTR ["wrapKey"] (VBytes secret)
            _ _ _ _ _ _ _);
    [reflexivity | reflexivity | reflexivity | simpl; auto | reflexivity
     | reflexivity | reflexivity].
Defined.

(** Wrapping an AES-KW key as pkcs8, which its export refuses. *)
Lemma wrapKey_export_not_fulfilled_witness :
  (run (subtle2_wrapKey "pkcs8" kw_key gcm_key aes_gcm_iv)).1 = Normal Pending
  ∧ provider_calls (run (subtle2_wrapKey "pkcs8" kw_key gcm_key aes_gcm_iv)).2
    = (run (subtle2_exportKey "pkcs8" kw_key)).2.
Proof.
  refine (wrapKey_export_not_fulfilled normalize2 Scenario.exportKey_registry
            methods2 Scenario.JSON_stringify Scenario.TextEncoder_encode
            "pkcs8" kw_key gcm_key aes_gcm_iv AES_GCM ["encrypt"; "decrypt"; "wrapKey"]
            (Rejected (NotSupportedError "AES-KW: format")) _ _ _ _ _ _ _ _);
    [reflexivity | reflexivity | reflexivity | simpl; auto | reflexivity
     | discriminate | reflexivity | intros v H; discriminate H].
Defined.

(** Generating a key when the algorithm's generateKey throws. *)
Lemma generateKey_forwards_provider_error_witness :
  run (generateKey Scenario.normalize
         (λ a m, if String.eqb m "generateKey"
                 then Some (λ _, Throw (OperationError "no entropy"))
                 else Scenario.methods a m)
         aes_gcm_iv (SBool true) ["encrypt"])
  = (Normal (Rejected (OperationError "no entropy")),
     [Normalize "generateKey" aes_gcm_iv;
      Call AES_GCM "generateKey"
           [ADescriptor aes_gcm_iv; AScalar (SBool true); AUsages ["encrypt"]]]).
Proof.
  refine (generateKey_forwards_provider_error Scenario.normalize _
            aes_gcm_iv (SBool true) ["encrypt"] AES_GCM
            (λ _, Throw (OperationError "no entropy")) _ _ _ _); reflexivity.
Defined.

(** Importing raw bytes when the algorithm's importKey returns a promise
    that rejects. *)
Lemma importKey_forwards_provider_error_witness :
  run (importKey Scenario.normalize
         (λ a m, if String.eqb m "importKey"
                 then Some (λ _, Normal (VPromise (Rejected (DataError "bad length"))))
                 else Scenario.methods a m)
         Scenario.recognizedKeyUsages Scenario.JsonWebKey_constructor
         "raw" (VBytes secret) aes_gcm_iv (SBool true) ["encrypt"])
  = (Normal (Rejected (DataError "bad length")),
     [Normalize "importKey" aes_gcm_iv;
      Call AES_GCM "importKey"
           [AString "raw"; AValue (VBytes secret); ADescriptor aes_gcm_iv;
            AScalar (SBool true); AUsages ["encrypt"]]]).
Proof.
  refine (importKey_forwards_provider_error Scenario.normalize _
            Scenario.recognizedKeyUsages Scenario.JsonWebKey_constructor
            "raw" secret aes_gcm_iv (SBool true) ["encrypt"] AES_GCM
            (λ _, Normal (VPromise (Rejected (DataError "bad length")))) _ _ _ _ _);
    reflexivity.
Defined.

End Examples.
